(** * LearnSathi: friendship controller and theme store

    A shallow embedding of [backend/src/controllers/user.controller.js]
    and [frontend/src/store/useThemeStore.js].

    The six request handlers of the controller are [async] functions that
    talk to two MongoDB collections through Mongoose and answer through
    [res.status(..).json(..)].  They are embedded as computations in a
    state-and-exception monad over a [World] that holds the committed
    contents of the two collections, the working copy of the open
    transaction, a schedule saying which store calls reject, and the
    chronological list of the events the handler produced.

    A stored identifier is an [ObjectId]; an identifier that comes with a
    request is a string, which Mongoose casts to an ObjectId wherever it
    meets a stored one and which the handlers compare as a string where
    they use [===], [!==] and [includes].  The timestamps a schema may
    add are not modelled. *)

From Stdlib Require Import Ascii.
From stdpp Require Import base option list strings gmap.

(** ** Identifiers *)

(** A hexadecimal digit. *)
Inductive Hex :=
  | H0 | H1 | H2 | H3 | H4 | H5 | H6 | H7
  | H8 | H9 | Ha | Hb | Hc | Hd | He | Hf.

Global Instance Hex_eq_dec : EqDecision Hex.
Proof. solve_decision. Defined.

(** An ObjectId, by its hexadecimal digits (twenty-four of them for an id
    of the driver). *)
Record ObjectId := OID { digits : list Hex }.

Global Instance ObjectId_eq_dec : EqDecision ObjectId.
Proof. solve_decision. Defined.

Definition hex_char (h : Hex) : Ascii.ascii :=
  match h with
  | H0 => "0" | H1 => "1" | H2 => "2" | H3 => "3"
  | H4 => "4" | H5 => "5" | H6 => "6" | H7 => "7"
  | H8 => "8" | H9 => "9" | Ha => "a" | Hb => "b"
  | Hc => "c" | Hd => "d" | He => "e" | Hf => "f"
  end%char.

(** The digit a character spells, in either case. *)
Definition hex_of_char (c : Ascii.ascii) : option Hex :=
  match c with
  | "0" => Some H0 | "1" => Some H1 | "2" => Some H2 | "3" => Some H3
  | "4" => Some H4 | "5" => Some H5 | "6" => Some H6 | "7" => Some H7
  | "8" => Some H8 | "9" => Some H9
  | "a" | "A" => Some Ha | "b" | "B" => Some Hb | "c" | "C" => Some Hc
  | "d" | "D" => Some Hd | "e" | "E" => Some He | "f" | "F" => Some Hf
  | _ => None
  end%char.

Fixpoint hex_string (ds : list Hex) : string :=
  match ds with
  | [] => EmptyString
  | h :: ds' => String (hex_char h) (hex_string ds')
  end.

Fixpoint hex_digits (s : string) : option (list Hex) :=
  match s with
  | EmptyString => Some []
  | String c s' =>
      match hex_of_char c, hex_digits s' with
      | Some h, Some ds => Some (h :: ds)
      | _, _ => None
      end
  end.

(** [id.toString()]: the digits in lower case. *)
Definition toString (id : ObjectId) : string := hex_string (digits id).

(** The cast of a string to an ObjectId, as Mongoose does it to the ids
    of a filter or of a new document: the hexadecimal digits are read in
    either case; [None] is the CastError of a string that is not made of
    such digits.  The length is the concern of the format check. *)
Definition cast (s : string) : option ObjectId := OID <$> hex_digits s.

(** ** Documents *)

(** [status] of a friend request.  The schema file is not part of the
    controller; the two states are the ones the controller reads and
    writes. *)
Inductive Status := Pending | Accepted.

Global Instance Status_eq_dec : EqDecision Status.
Proof. solve_decision. Defined.

(** A document of the [User] collection, with the fields the controller
    selects, filters on or updates. *)
Record User := mkUser {
  user_id : ObjectId;
  fullName : string;
  profilePic : string;
  nativeLanguage : string;
  learningLanguage : string;
  isOnboarded : bool;
  friends : list ObjectId
}.

(** A document of the [FriendRequest] collection. *)
Record FriendRequest := mkFriendRequest {
  request_id : ObjectId;
  sender : ObjectId;
  recipient : ObjectId;
  status : Status
}.

(** Modelled from the spec: the default of the [status] path in the
    FriendRequest schema (models/FriendRequest.js), which
    [FriendRequest.create] fills in; the spec gives [pending] as the
    initial state. *)
Definition default_status : Status := Pending.

(** The two collections, each in natural (insertion) order. *)
Record DB := mkDB {
  users : list User;
  requests : list FriendRequest
}.

(** Projection ["fullName profilePic nativeLanguage learningLanguage"]
    ([_id] is always kept by [select]). *)
Record UserSummary := mkSummary {
  sum_id : ObjectId;
  sum_fullName : string;
  sum_profilePic : string;
  sum_nativeLanguage : string;
  sum_learningLanguage : string
}.

(** Projection ["fullName profilePic"]. *)
Record UserCard := mkCard {
  card_id : ObjectId;
  card_fullName : string;
  card_profilePic : string
}.

Definition summary (u : User) : UserSummary :=
  mkSummary (user_id u) (fullName u) (profilePic u)
            (nativeLanguage u) (learningLanguage u).

Definition card (u : User) : UserCard :=
  mkCard (user_id u) (fullName u) (profilePic u).

(** A reference path of a request after [populate]: left as the id,
    or replaced by the projected document, [None] standing for [null]. *)
Inductive Party :=
  | PartyRef (id : ObjectId)
  | PartySummary (doc : option UserSummary)
  | PartyCard (doc : option UserCard).

Record RequestView := mkView {
  view_id : ObjectId;
  view_sender : Party;
  view_recipient : Party;
  view_status : Status
}.

(** ** Responses and events *)

Inductive Body :=
  | JMessage (message : string)
  | JUsers (docs : list UserSummary)
  | JRequest (doc : FriendRequest)
  | JRequests (incomingReqs acceptedReqs : list RequestView)
  | JOutgoing (docs : list RequestView).

Inductive Event :=
  | EvStartSession
  | EvStartTransaction
  | EvCommit
  | EvAbort
  | EvEndSession
  | EvLogError (label : string)
  | EvRespond (code : nat) (body : Body).

(** ** The world a handler runs in *)

Record World := mkWorld {
  committed : DB;          (* what is persisted *)
  txn : option DB;         (* working copy of the open transaction *)
  sessionOpen : bool;      (* a session was started and not yet ended *)
  faults : list bool;      (* one flag per store call: [true] rejects *)
  events : list Event      (* oldest first *)
}.

(** A world with nothing in flight. *)
Definition initial (db : DB) (fs : list bool) : World :=
  mkWorld db None false fs [].

Inductive Completion (A : Type) :=
  | Normal (a : A)
  | Throw.
Arguments Normal {A} a.
Arguments Throw {A}.

Definition Async (A : Type) : Type := World → Completion A * World.

Global Instance Async_ret : MRet Async := λ A a w, (Normal a, w).

Global Instance Async_bind : MBind Async := λ A B f m w,
  match m w with
  | (Normal a, w') => f a w'
  | (Throw, w') => (Throw, w')
  end.

(** A rejection that no store call is part of. *)
Definition throw {A} : Async A := λ w, (Throw, w).

Definition emit (e : Event) : Async unit := λ w,
  (Normal (), mkWorld (committed w) (txn w) (sessionOpen w) (faults w)
                      (events w ++ [e])).

(** [res.status(code).json(body)] *)
Definition respond (code : nat) (body : Body) : Async unit :=
  emit (EvRespond code body).

(** [console.error(label, error)] *)
Definition log_error (label : string) : Async unit :=
  emit (EvLogError label).

(** [try { body } catch (error) { handler }] *)
Definition try_catch {A} (body handler : Async A) : Async A := λ w,
  match body w with
  | (Normal a, w') => (Normal a, w')
  | (Throw, w') => handler w'
  end.

(** [try { body } catch (error) { handler } finally { fin }]: [fin] runs
    on every way out, and the completion of the try/catch part stands
    unless [fin] itself throws. *)
Definition try_catch_finally {A} (body handler : Async A) (fin : Async unit)
  : Async A := λ w,
  let '(c, w') := try_catch body handler w in
  match fin w' with
  | (Normal _, w'') => (c, w'')
  | (Throw, w'') => (Throw, w'')
  end.

(** An awaited call into the driver: it consumes one flag of the fault
    schedule and rejects, without any effect, when the flag is set. *)
Definition await {A} (op : Async A) : Async A := λ w,
  match faults w with
  | true :: fs =>
      (Throw, mkWorld (committed w) (txn w) (sessionOpen w) fs (events w))
  | false :: fs =>
      op (mkWorld (committed w) (txn w) (sessionOpen w) fs (events w))
  | [] => op w
  end.

(** [Promise.all([a, b])]: both calls are issued when the array is built;
    the result rejects when either of them does. *)
Definition promise_all2 {A B} (a : Async A) (b : Async B) : Async (A * B) :=
  λ w,
  let '(ca, w1) := a w in
  let '(cb, w2) := b w1 in
  match ca, cb with
  | Normal x, Normal y => (Normal (x, y), w2)
  | _, _ => (Throw, w2)
  end.

(** *** Sessions and transactions *)

(** What a call bound to the session reads: the working copy of the
    transaction when one is open. *)
Definition session_view (w : World) : DB :=
  match txn w with
  | Some d => d
  | None => committed w
  end.

Definition session_read {A} (q : DB → A) : Async A :=
  await (λ w, (Normal (q (session_view w)), w)).

(** The effect of a write bound to the session: on the working copy of
    the open transaction, or at once on what is persisted when the
    session has none. *)
Definition apply_write (f : DB → DB) (w : World) : World :=
  match txn w with
  | Some d =>
      mkWorld (committed w) (Some (f d)) (sessionOpen w) (faults w) (events w)
  | None =>
      mkWorld (f (committed w)) None (sessionOpen w) (faults w) (events w)
  end.

Definition session_write (f : DB → DB) : Async unit :=
  await (λ w, (Normal (), apply_write f w)).

(** A query that is not bound to a session reads what is persisted. *)
Definition plain_read {A} (q : DB → A) : Async A :=
  await (λ w, (Normal (q (committed w)), w)).

(** [await mongoose.startSession()] *)
Definition startSession : Async unit :=
  await (λ w,
    (Normal (), mkWorld (committed w) (txn w) true (faults w)
                        (events w ++ [EvStartSession]))).

(** [session.startTransaction()]: synchronous; the driver throws when
    the session already has a transaction in progress. *)
Definition startTransaction : Async unit := λ w,
  match txn w with
  | Some _ => (Throw, w)
  | None =>
      (Normal (), mkWorld (committed w) (Some (committed w)) (sessionOpen w)
                          (faults w) (events w ++ [EvStartTransaction]))
  end.

(** [await session.commitTransaction()] *)
Definition commitTransaction : Async unit :=
  await (λ w,
    match txn w with
    | Some d =>
        (Normal (), mkWorld d None (sessionOpen w) (faults w)
                            (events w ++ [EvCommit]))
    | None => (Throw, w)
    end).

(** [await session.abortTransaction()] *)
Definition abortTransaction : Async unit :=
  await (λ w,
    match txn w with
    | Some _ =>
        (Normal (), mkWorld (committed w) None (sessionOpen w) (faults w)
                            (events w ++ [EvAbort]))
    | None => (Throw, w)
    end).

(** [session.endSession()]: not awaited.  A transaction still in progress
    is discarded by the driver when its session ends. *)
Definition endSession : Async unit := λ w,
  (Normal (), mkWorld (committed w) None false (faults w)
                      (events w ++ [EvEndSession])).

(** ** Queries and updates on the collections *)

(** A query whose filter holds an id given as a string: Mongoose casts
    the string, and the query rejects with a CastError when it cannot. *)
Definition with_cast {A} (s : string) (q : ObjectId → Async A) : Async A :=
  match cast s with
  | Some id => q id
  | None => throw
  end.

(** The document [User.findById] resolves to, for the ObjectId the
    argument was cast to. *)
Definition findUser (id : ObjectId) (db : DB) : option User :=
  List.find (λ u, bool_decide (user_id u = id)) (users db).

(** The document [FriendRequest.findById] resolves to, for the ObjectId
    the argument was cast to. *)
Definition findRequest (id : ObjectId) (db : DB) : option FriendRequest :=
  List.find (λ r, bool_decide (request_id r = id)) (requests db).

(** The filter [{ $or: [{ sender: a, recipient: b },
    { sender: b, recipient: a }] }], on the ObjectIds its strings were
    cast to. *)
Definition between (a b : ObjectId) (r : FriendRequest) : Prop :=
  (sender r = a ∧ recipient r = b) ∨ (sender r = b ∧ recipient r = a).

Global Instance between_dec a b r : Decision (between a b r).
Proof. unfold between. apply _. Defined.

(** [FriendRequest.findOne({ $or: [..] })]: the first match in natural
    order. *)
Definition findOneBetween (a b : ObjectId) (db : DB)
  : option FriendRequest :=
  List.find (λ r, bool_decide (between a b r)) (requests db).

(** [User.find({ _id: { $nin: ids }, isOnboarded: true })] *)
Definition findRecommended (ids : list ObjectId) (db : DB) : list User :=
  filter (λ u, (user_id u ∉ ids) ∧ isOnboarded u = true) (users db).

(** [array.includes(s)] on a Mongoose array of ObjectIds, for a string:
    the string is compared with [==] to each element, that is, with the
    element's [toString()]; nothing is cast. *)
Definition includes (ids : list ObjectId) (s : string) : bool :=
  bool_decide (s ∈ toString <$> ids).

(** [$addToSet]: appends the value unless the array already has it. *)
Definition addToSet (id : ObjectId) (ids : list ObjectId) : list ObjectId :=
  if bool_decide (id ∈ ids) then ids else ids ++ [id].

(** Applies [f] to the first element satisfying [p], as an update that
    addresses one document does. *)
Fixpoint update_first {A} (p : A → bool) (f : A → A) (l : list A) : list A :=
  match l with
  | [] => []
  | x :: l' => if p x then f x :: l' else x :: update_first p f l'
  end.

Definition add_friend (friend : ObjectId) (u : User) : User :=
  mkUser (user_id u) (fullName u) (profilePic u) (nativeLanguage u)
         (learningLanguage u) (isOnboarded u) (addToSet friend (friends u)).

(** [User.findByIdAndUpdate(id, { $addToSet: { friends: friend } },
    { new: true })]: changes the document when there is one and resolves
    to the new document, or to [null] when there is none. *)
Definition updateAddFriend (id friend : ObjectId) (db : DB) : DB :=
  mkDB (update_first (λ u, bool_decide (user_id u = id)) (add_friend friend)
                     (users db))
       (requests db).

Definition set_status (s : Status) (r : FriendRequest) : FriendRequest :=
  mkFriendRequest (request_id r) (sender r) (recipient r) s.

(** [doc.save()] of a request whose [status] was assigned. *)
Definition saveRequest (doc : FriendRequest) (db : DB) : DB :=
  mkDB (users db)
       (update_first (λ r, bool_decide (request_id r = request_id doc))
                     (λ _, doc) (requests db)).

(** The insert of [FriendRequest.create]. *)
Definition insertRequest (doc : FriendRequest) (db : DB) : DB :=
  mkDB (users db) (requests db ++ [doc]).

(** [await FriendRequest.create([doc], { session })]: resolves to the
    stored document; the unique index on [_id] rejects an id that is
    already taken. *)
Definition createRequest (doc : FriendRequest) : Async FriendRequest :=
  await (λ w,
    match findRequest (request_id doc) (session_view w) with
    | Some _ => (Throw, w)
    | None => (Normal doc, apply_write (insertRequest doc) w)
    end).

(** [populate(path, "fullName profilePic nativeLanguage learningLanguage")]
    of one reference. *)
Definition populateSummary (id : ObjectId) (db : DB)
  : option UserSummary :=
  summary <$> findUser id db.

(** [populate({ path, select: "fullName profilePic",
    match: { _id: { $ne: userId } } })] of one reference: the referenced
    document is looked up with the match condition added to the filter,
    and the path becomes [null] when nothing is found. *)
Definition populateCardNe (userId id : ObjectId) (db : DB)
  : option UserCard :=
  card <$> List.find
    (λ u, bool_decide (user_id u = id ∧ user_id u ≠ userId)) (users db).

(** [populate("friends", ..)] of an array of references: the documents
    found, in the order of the array. *)
Definition populateFriends (ids : list ObjectId) (db : DB)
  : list UserSummary :=
  omap (λ id, populateSummary id db) ids.

Definition is_null (p : Party) : bool :=
  match p with
  | PartySummary None | PartyCard None => true
  | _ => false
  end.

(** The queries stay folded when a handler is run symbolically. *)
Arguments findUser : simpl never.
Arguments findRequest : simpl never.
Arguments findOneBetween : simpl never.
Arguments findRecommended : simpl never.
Arguments includes : simpl never.
Arguments updateAddFriend : simpl never.
Arguments saveRequest : simpl never.
Arguments insertRequest : simpl never.
Arguments populateSummary : simpl never.
Arguments populateCardNe : simpl never.
Arguments populateFriends : simpl never.

(** ** The handlers *)

Section Controller.

(** [mongoose.Types.ObjectId.isValid]: the format check of the driver. *)
Variable isValid : string → bool.

Definition server_error (label : string) : Async unit :=
  log_error label ;; respond 500 (JMessage "Server error").

(** In every handler the caller is given by the [_id] of the record the
    authentication middleware has put in [req.user]; [req.user.id] is its
    [toString], a string the cast takes back to that [_id]. *)

Definition getRecommendedUsers (currentUserId : ObjectId) : Async unit :=
  try_catch
    (currentUser ← plain_read (findUser currentUserId);
     match currentUser with
     | None => respond 404 (JMessage "User not found")
     | Some currentUser =>
         let friendIds := friends currentUser ++ [currentUserId] in
         recommendedUsers ← plain_read (findRecommended friendIds);
         respond 200 (JUsers (summary <$> recommendedUsers))
     end)
    (server_error "Error in getRecommendedUsers").

Definition getMyFriends (userId : ObjectId) : Async unit :=
  try_catch
    (user ← plain_read (λ db,
       (λ u, populateFriends (friends u) db) <$> findUser userId db);
     match user with
     | None => respond 404 (JMessage "User not found")
     | Some user_friends => respond 200 (JUsers user_friends)
     end)
    (server_error "Error in getMyFriends").

(** [myId] is the caller and [recipientId] is [req.params.id], a string;
    [newId] is the [_id] the driver generates for the document it
    creates. *)
Definition sendFriendRequest (myId : ObjectId) (recipientId : string)
  (newId : ObjectId) : Async unit :=
  startSession ;;
  startTransaction ;;
  try_catch_finally
    (if negb (isValid recipientId) then
       respond 400 (JMessage "Invalid user ID")
     else if decide (toString myId = recipientId) then
       respond 400 (JMessage "Cannot send request to yourself")
     else
       found ← promise_all2
         (session_read (findUser myId))
         (with_cast recipientId (λ id, session_read (findUser id)));
       match found with
       | (Some currentUser, Some recipient) =>
           if includes (friends currentUser) recipientId
              || includes (friends recipient) (toString myId)
           then respond 400 (JMessage "Already friends")
           else
             existingRequest ← with_cast recipientId (λ id,
               session_read (findOneBetween myId id));
             match existingRequest with
             | Some existing =>
                 respond 400 (JMessage
                   (if decide (status existing = Pending)
                    then "Request already pending"
                    else "Already connected"))
             | None =>
                 friendRequest ← with_cast recipientId (λ id,
                   createRequest
                     (mkFriendRequest newId myId id default_status));
                 commitTransaction ;;
                 respond 201 (JRequest friendRequest)
             end
       | _ => respond 404 (JMessage "User not found")
       end)
    (abortTransaction ;; server_error "Error in sendFriendRequest")
    endSession.

(** [userId] is the caller and [requestId] is [req.params.id], a
    string. *)
Definition acceptFriendRequest (userId : ObjectId) (requestId : string)
  : Async unit :=
  startSession ;;
  startTransaction ;;
  try_catch_finally
    (if negb (isValid requestId) then
       respond 400 (JMessage "Invalid request ID")
     else
       found ← with_cast requestId (λ id, session_read (findRequest id));
       match found with
       | None => respond 404 (JMessage "Request not found")
       | Some friendRequest =>
           if decide (toString (recipient friendRequest) ≠ toString userId)
           then
             respond 403 (JMessage "Unauthorized")
           else if decide (status friendRequest ≠ Pending) then
             respond 400 (JMessage "Request already processed")
           else
             let friendRequest := set_status Accepted friendRequest in
             session_write (saveRequest friendRequest) ;;
             promise_all2
               (session_write (updateAddFriend (sender friendRequest)
                                               (recipient friendRequest)))
               (session_write (updateAddFriend (recipient friendRequest)
                                               (sender friendRequest))) ;;
             commitTransaction ;;
             respond 200 (JMessage "Request accepted")
       end)
    (abortTransaction ;; server_error "Error in acceptFriendRequest")
    endSession.

Definition getFriendRequests (userId : ObjectId) : Async unit :=
  try_catch
    (found ← promise_all2
       (plain_read (λ db,
          (λ r, mkView (request_id r)
                       (PartySummary (populateSummary (sender r) db))
                       (PartyRef (recipient r)) (status r))
          <$> filter (λ r, recipient r = userId ∧ status r = Pending)
                     (requests db)))
       (plain_read (λ db,
          (λ r, mkView (request_id r)
                       (PartyCard (populateCardNe userId (sender r) db))
                       (PartyCard (populateCardNe userId (recipient r) db))
                       (status r))
          <$> filter (λ r, (sender r = userId ∧ status r = Accepted)
                           ∨ (recipient r = userId ∧ status r = Accepted))
                     (requests db)));
     let '(incomingReqs, acceptedReqs) := found in
     let filteredAcceptedReqs :=
       filter (λ req, is_null (view_sender req) = false
                      ∧ is_null (view_recipient req) = false) acceptedReqs in
     respond 200 (JRequests incomingReqs filteredAcceptedReqs))
    (server_error "Error in getFriendRequests").

Definition getOutgoingFriendReqs (userId : ObjectId) : Async unit :=
  try_catch
    (outgoingRequests ← plain_read (λ db,
       (λ r, mkView (request_id r) (PartyRef (sender r))
                    (PartySummary (populateSummary (recipient r) db))
                    (status r))
       <$> filter (λ r, sender r = userId ∧ status r = Pending)
                  (requests db));
     respond 200 (JOutgoing outgoingRequests))
    (server_error "Error in getOutgoingFriendReqs").

End Controller.

(** ** Observing a run *)

(** The handler run from a world with nothing in flight: [db] is what is
    persisted and [fs] the fault schedule of the store calls. *)
Definition run {A} (handler : Async A) (db : DB) (fs : list bool) : World :=
  snd (handler (initial db fs)).

Definition responses (evs : list Event) : list (nat * Body) :=
  omap (λ e, match e with
             | EvRespond code body => Some (code, body)
             | _ => None
             end) evs.

(** The response the client receives, if any. *)
Definition response (w : World) : option (nat * Body) :=
  head (responses (events w)).

(** ** The theme store *)

Module ThemeStore.

(** The state held by the store; [setTheme] is its only action. *)
Record State := mkState { theme : string }.

(** [localStorage.getItem(key)]: the stored string, or [null]. *)
Definition getItem (key : string) (localStorage : gmap string string)
  : option string :=
  localStorage !! key.

(** [localStorage.setItem(key, value)] *)
Definition setItem (key value : string) (localStorage : gmap string string)
  : gmap string string :=
  <[key := value]> localStorage.

(** [value || fallback] for a string or [null]: [null] and the empty
    string are the falsy ones. *)
Definition or_else (value : option string) (fallback : string) : string :=
  match value with
  | Some (String c s) => String c s
  | Some EmptyString => fallback
  | None => fallback
  end.

(** The initial state built by [create]. *)
Definition useThemeStore (localStorage : gmap string string) : State :=
  mkState (or_else (getItem "ChatApp" localStorage) "forest").

(** The action [setTheme(theme)], on the storage and the state. *)
Definition setTheme (t : string) (ws : gmap string string * State)
  : gmap string string * State :=
  let localStorage := setItem "ChatApp" t (fst ws) in
  (localStorage, mkState t).

End ThemeStore.

(** ** Sequences of calls *)

(** One request to the controller. *)
Inductive Call :=
  | CallRecommended (userId : ObjectId)
  | CallMyFriends (userId : ObjectId)
  | CallSend (userId : ObjectId) (recipientId : string) (newId : ObjectId)
  | CallAccept (userId : ObjectId) (requestId : string)
  | CallRequests (userId : ObjectId)
  | CallOutgoing (userId : ObjectId).

Definition handler (isValid : string → bool) (c : Call) : Async unit :=
  match c with
  | CallRecommended u => getRecommendedUsers u
  | CallMyFriends u => getMyFriends u
  | CallSend u rid nid => sendFriendRequest isValid u rid nid
  | CallAccept u rid => acceptFriendRequest isValid u rid
  | CallRequests u => getFriendRequests u
  | CallOutgoing u => getOutgoingFriendReqs u
  end.

(** What is persisted after one call, run under its own fault schedule. *)
Definition step (isValid : string → bool) (db : DB) (c : Call * list bool)
  : DB :=
  committed (run (handler isValid c.1) db c.2).

Definition exec (isValid : string → bool) (db : DB)
  (cs : list (Call * list bool)) : DB :=
  foldl (step isValid) db cs.

(** ** Properties named by the specification *)

(** What an acceptance of [r] persists: the saved status and the two
    friend-set updates, in the order the handler issues them. *)
Definition accepted_db (r : FriendRequest) (db : DB) : DB :=
  updateAddFriend (recipient r) (sender r)
    (updateAddFriend (sender r) (recipient r)
       (saveRequest (set_status Accepted r) db)).

(** At most one request per unordered pair of users. *)
Definition one_per_pair (rs : list FriendRequest) : Prop :=
  ∀ i j r1 r2,
    rs !! i = Some r1 → rs !! j = Some r2 →
    between (sender r1) (recipient r1) r2 → i = j.


(** ** Properties the handlers keep *)

(** What a handler that only reads leaves behind: one answer that is not
    a 500, or the logged error and the 500 after a rejected store call. *)
Definition reader_outcome (label : string) (fs : list bool) (w : World)
  : Prop :=
  (∃ code body, events w = [EvRespond code body] ∧ code ≠ 500)
  ∨ (events w = [EvLogError label; EvRespond 500 (JMessage "Server error")]
     ∧ true ∈ fs).

(** Among the records that exist, being a friend goes both ways. *)
Definition symmetric_friends (db : DB) : Prop :=
  ∀ a b u v,
    findUser a db = Some u → findUser b db = Some v →
    (b ∈ friends u ↔ a ∈ friends v).

(** Of the store calls a run has issued, some have been rejected: the
    flags of the schedule [fs] that the run has used up, those before the
    ones left in [faults w], hold a [true]. *)
Definition some_call_rejected (fs : list bool) (w : World) : Prop :=
  ∃ used, fs = used ++ faults w ∧ true ∈ used.

(** None of the store calls a run has issued has been rejected. *)
Definition no_call_rejected (fs : list bool) (w : World) : Prop :=
  ∃ used, fs = used ++ faults w ∧ true ∉ used.

(** The trace of a handler with a transaction whose [try] block has
    thrown: the rollback, the logged error, the 500. *)
Definition rolled_back (label : string) : list Event :=
  [EvStartSession; EvStartTransaction; EvAbort; EvLogError label;
   EvRespond 500 (JMessage "Server error"); EvEndSession].

(** The parties of an accepted request hold each other as friends, as far
    as their records exist. *)
Definition accepted_are_friends (db : DB) : Prop :=
  ∀ r, r ∈ requests db → status r = Accepted →
    (∀ u, findUser (sender r) db = Some u → recipient r ∈ friends u)
    ∧ (∀ v, findUser (recipient r) db = Some v → sender r ∈ friends v).

(** Two versions of a record that differ in the friends at most. *)
Definition same_profile (u u' : User) : Prop :=
  user_id u' = user_id u ∧ fullName u' = fullName u
  ∧ profilePic u' = profilePic u ∧ nativeLanguage u' = nativeLanguage u
  ∧ learningLanguage u' = learningLanguage u
  ∧ isOnboarded u' = isOnboarded u.

(** ** Sample data *)

(** An instance of the format check for the sample data: 24 hexadecimal
    digits, in either case. *)
Definition hex24 (s : string) : bool :=
  Nat.eqb (String.length s) 24 && bool_decide (is_Some (cast s)).

(** The ObjectId a string of digits spells. *)
Definition oid (s : string) : ObjectId := default (OID []) (cast s).

Definition strA : string := "64b000000000000000000a01".
Definition strB : string := "64b000000000000000000b02".
Definition strC : string := "64b000000000000000000c03".
Definition strR : string := "64c000000000000000000001".
Definition strR' : string := "64c000000000000000000002".

(** The ids of A and of the request, spelled in upper case. *)
Definition strA_upper : string := "64B000000000000000000A01".
Definition strR_upper : string := "64C000000000000000000001".

Definition idA : ObjectId := oid strA.
Definition idB : ObjectId := oid strB.
Definition idC : ObjectId := oid strC.
Definition idR : ObjectId := oid strR.
Definition idR' : ObjectId := oid strR'.

Definition userA (fr : list ObjectId) : User :=
  mkUser idA "Asha" "asha.png" "hindi" "english" true fr.
Definition userB (fr : list ObjectId) : User :=
  mkUser idB "Bilal" "bilal.png" "urdu" "spanish" true fr.
Definition userC (fr : list ObjectId) : User :=
  mkUser idC "Chen" "chen.png" "mandarin" "hindi" false fr.

(** Three users and no request. *)
Definition db_fresh : DB := mkDB [userA []; userB []; userC []] [].

(** A has asked B. *)
Definition db_pending : DB :=
  mkDB [userA []; userB []; userC []]
       [mkFriendRequest idR idA idB Pending].

(** B has accepted: the request is accepted and both are friends. *)
Definition db_friends : DB :=
  mkDB [userA [idB]; userB [idA]; userC []]
       [mkFriendRequest idR idA idB Accepted].

(** A has asked B, and the record of A is gone since. *)
Definition db_orphan : DB :=
  mkDB [userB []; userC []] [mkFriendRequest idR idA idB Pending].


(** A sequence of calls with some store faults. *)
Definition sample_calls : list (Call * list bool) :=
  [(CallSend idA strB idR, []); (CallAccept idA strR, []);
   (CallAccept idB strR, [false; false; true]); (CallAccept idB strR_upper, []);
   (CallSend idB strA idR', []); (CallMyFriends idA, [true])].

(** Calls made after an acceptance. *)
Definition later_calls : list (Call * list bool) :=
  [(CallSend idC strA idR', []); (CallMyFriends idA, [true]);
   (CallAccept idA strR, [])].

(** ** Symbolic execution of a handler *)

(** Runs the handler as far as the next undetermined choice. *)
Ltac crunch :=
  cbv [run initial mbind mret Async_bind Async_ret
       try_catch_finally try_catch await promise_all2 session_read
       session_write plain_read apply_write session_view startSession
       startTransaction commitTransaction abortTransaction endSession
       respond log_error emit server_error createRequest with_cast throw
       committed txn sessionOpen faults events fst snd app
       request_id default_status handler step].

(** Case analysis on the next flag of the fault schedule. *)
Ltac split_faults :=
  match goal with
  | |- context [match ?fs with [] => _ | _ => _ end] =>
      is_var fs; destruct fs as [|[|] fs]
  end.

(** Case analysis on the next check, cast or query result. *)
Ltac split_data :=
  match goal with
  | |- context [if negb ?b then _ else _] =>
      destruct b eqn:?; cbv [negb]
  | |- context [if decide (toString ?a = ?b) then _ else _] =>
      destruct (decide (toString a = b))
  | |- context [match cast ?s with _ => _ end] =>
      destruct (cast s) eqn:?
  | |- context [match findUser ?a ?d with _ => _ end] =>
      destruct (findUser a d) eqn:?
  | |- context [match findRequest ?a ?d with _ => _ end] =>
      destruct (findRequest a d) eqn:?
  | |- context [match findOneBetween ?a ?b ?d with _ => _ end] =>
      destruct (findOneBetween a b d) eqn:?
  | |- context [if ?b then _ else _] =>
      match type of b with
      | bool => destruct b eqn:?
      | _ => destruct b
      end
  end.

(** Every path of the handler, one goal each. *)
Ltac walk := crunch; repeat (first [split_faults | split_data]; crunch).

(** Runs [acceptFriendRequest] with a valid id up to its query. *)
Ltac accept_prefix Hv :=
  unfold acceptFriendRequest; rewrite Hv; cbv [negb]; crunch.

(** Closes a path of a run whose checks are fixed by the hypotheses. *)
Ltac settle :=
  simplify_eq; repeat case_decide;
  first [reflexivity | congruence | done].

(** The flags of a schedule [l] that come before its tail [r]. *)
Ltac used_flags l r :=
  lazymatch l with
  | r => constr:(@nil bool)
  | ?b :: ?l' => let p := used_flags l' r in constr:(b :: p)
  end.

Ltac pick_used :=
  lazymatch goal with
  | |- ex (fun used => ?l = ?f used ?r ∧ _) =>
      let p := used_flags l r in exists p; split; [reflexivity|]
  end.

Ltac flag_in := repeat first [by left | right].

Ltac flag_notin :=
  let H := fresh in
  intros H;
  repeat (apply elem_of_cons in H as [H|H]; [discriminate H|]);
  by apply elem_of_nil in H.

(** Tells whether a store call was rejected on the path walked, and what
    the run then leaves. *)
Ltac pick_rejection :=
  first
    [ left; split; [pick_used; flag_notin|]; split; reflexivity
    | right; split; [pick_used; flag_in|]; split; [reflexivity|];
      first [by left | by (right; left) | by (right; right)] ].

(** Chooses the way a run of a handler that only reads has ended. *)
Ltac pick_reader :=
  first
    [ by (left; eexists _, _)
    | right; split; [reflexivity|];
      repeat first [by left | right] ].

(** The shape of a run, among those of the handlers with a transaction. *)
Ltac pick_send_shape :=
  first
    [ by left
    | by (right; left; eexists _, _; split; [|split; [left|]])
    | by (right; left; eexists _, _; split; [|split; [right|]])
    | by (do 2 right; left)
    | by (do 3 right; left)
    | do 4 right; eexists; repeat split; try done; by eexists _, _ ].

Ltac pick_accept_shape checked :=
  first
    [ by left
    | by (right; left; eexists _, _; split; [|split; [left|]])
    | by (right; left; eexists _, _; split; [|split; [right; left|]])
    | by (right; left; eexists _, _; split; [|split; [right; right|]])
    | by (do 2 right; left)
    | by (do 3 right; left)
    | do 4 right; eexists _, _; repeat split; try done;
      first [ by apply checked
            | match goal with
              | H : ¬ (_ ≠ _) |- _ => by apply dec_stable in H
              end ] ].

(** * Facts about identifiers *)

Lemma hex_of_hex_char h : hex_of_char (hex_char h) = Some h.
Proof. by destruct h. Qed.

Lemma hex_digits_string ds : hex_digits (hex_string ds) = Some ds.
Proof.
  induction ds as [|h ds IH]; [done|].
  cbn [hex_string hex_digits]. by rewrite hex_of_hex_char, IH.
Qed.

(** The cast takes the string of an ObjectId back to it. *)
Lemma cast_toString id : cast (toString id) = Some id.
Proof.
  unfold cast, toString. rewrite hex_digits_string. by destruct id.
Qed.

Lemma toString_inj a b : toString a = toString b → a = b.
Proof.
  intros H. pose proof (cast_toString a) as Ha.
  rewrite H, cast_toString in Ha. congruence.
Qed.

Global Instance toString_Inj : Inj (=) (=) toString.
Proof. intros a b. apply toString_inj. Qed.

(** [includes] of the string of an ObjectId is membership. *)
Lemma includes_toString ids id :
  includes ids (toString id) = bool_decide (id ∈ ids).
Proof.
  unfold includes. apply bool_decide_ext. split.
  - intros H. apply list_elem_of_fmap in H as (x & Hx & Hin).
    by apply toString_inj in Hx as ->.
  - intros H. by apply list_elem_of_fmap_2.
Qed.



(** * Facts about the collections *)

Lemma addToSet_elem id ids : id ∈ addToSet id ids.
Proof.
  unfold addToSet. case_bool_decide; [done|].
  apply elem_of_app. right. by apply list_elem_of_singleton.
Qed.

Lemma addToSet_present id ids : id ∈ ids → addToSet id ids = ids.
Proof. intros H. unfold addToSet. by rewrite bool_decide_eq_true_2. Qed.

Lemma addToSet_absent id ids : id ∉ ids → addToSet id ids = ids ++ [id].
Proof. intros H. unfold addToSet. by rewrite bool_decide_eq_false_2. Qed.

Lemma addToSet_idemp id ids : addToSet id (addToSet id ids) = addToSet id ids.
Proof. apply addToSet_present, addToSet_elem. Qed.

Lemma elem_of_addToSet y x ids : y ∈ addToSet x ids ↔ y = x ∨ y ∈ ids.
Proof.
  unfold addToSet. case_bool_decide.
  - split; [by right|]. by intros [->|?].
  - rewrite elem_of_app, list_elem_of_singleton. tauto.
Qed.

Lemma update_first_none {A} (p : A → bool) f l :
  List.find p l = None → update_first p f l = l.
Proof.
  induction l as [|x l IH]; simpl; [done|].
  destruct (p x); [done|]. intros H. by rewrite IH.
Qed.

Lemma find_update_first_hit {A} (p : A → bool) f l :
  (∀ x, p x = true → p (f x) = true) →
  List.find p (update_first p f l) = f <$> List.find p l.
Proof.
  intros Hp. induction l as [|x l IH]; simpl; [done|].
  destruct (p x) eqn:Hx; simpl.
  - by rewrite (Hp x Hx).
  - by rewrite Hx, IH.
Qed.

Lemma find_update_first_other {A} (p q : A → bool) f l :
  (∀ x, p x = true → q x = false ∧ q (f x) = false) →
  List.find q (update_first p f l) = List.find q l.
Proof.
  intros Hpq. induction l as [|x l IH]; simpl; [done|].
  destruct (p x) eqn:Hx; simpl.
  - destruct (Hpq x Hx) as [-> ->]. done.
  - by rewrite IH.
Qed.

(** An update of one document keeps every position of the collection,
    and changes at most the first document it addresses. *)
Lemma update_first_lookup {A} (p : A → bool) f l i x :
  l !! i = Some x →
  ∃ y, update_first p f l !! i = Some y
       ∧ (y = x ∨ (List.find p l = Some x ∧ y = f x)).
Proof.
  revert i. induction l as [|a l IH]; intros i H; [done|].
  simpl. destruct (p a) eqn:Ha; destruct i as [|i]; simpl in *;
    try (injection H as ->); eauto.
Qed.

Lemma update_first_length {A} (p : A → bool) f l :
  length (update_first p f l) = length l.
Proof.
  induction l as [|a l IH]; simpl; [done|].
  destruct (p a); simpl; by rewrite ?IH.
Qed.

Lemma update_first_lookup_inv {A} (p : A → bool) f l i y :
  update_first p f l !! i = Some y →
  ∃ x, l !! i = Some x ∧ (y = x ∨ (List.find p l = Some x ∧ y = f x)).
Proof.
  intros Hy.
  destruct (l !! i) as [x|] eqn:Hx.
  - destruct (update_first_lookup p f l i x Hx) as (y' & Hy' & Hcase).
    exists x. split; [done|]. congruence.
  - apply lookup_ge_None in Hx. apply lookup_lt_Some in Hy.
    rewrite update_first_length in Hy. lia.
Qed.

(** The update is the replacement of the document at the place where
    [find] finds it. *)
Lemma update_first_insert {A} (p : A → bool) f l x :
  List.find p l = Some x →
  ∃ i, l !! i = Some x ∧ update_first p f l = <[i := f x]> l.
Proof.
  induction l as [|a l IH]; simpl; [done|].
  destruct (p a) eqn:Ha.
  - intros [= ->]. by exists 0.
  - intros Hf. destruct (IH Hf) as (i & Hi & Hu).
    exists (S i). simpl. by rewrite Hu.
Qed.

Lemma find_app_miss {A} (p : A → bool) l x :
  List.find p l = None →
  List.find p (l ++ [x]) = if p x then Some x else None.
Proof.
  induction l as [|a l IH]; simpl; [done|].
  destruct (p a); [done|]. apply IH.
Qed.

Lemma find_app_hit {A} (p : A → bool) l l' x :
  List.find p l = Some x → List.find p (l ++ l') = Some x.
Proof.
  induction l as [|a l IH]; simpl; [done|].
  destruct (p a); [done|]. apply IH.
Qed.

Lemma findUser_updateAddFriend_same id friend db u :
  findUser id db = Some u →
  findUser id (updateAddFriend id friend db) = Some (add_friend friend u).
Proof.
  intros H. unfold findUser, updateAddFriend in *. simpl.
  rewrite find_update_first_hit; [by rewrite H|done].
Qed.

Lemma findUser_updateAddFriend_other id id' friend db :
  id ≠ id' →
  findUser id (updateAddFriend id' friend db) = findUser id db.
Proof.
  intros H. unfold findUser, updateAddFriend. simpl.
  apply find_update_first_other.
  intros x Hx. apply bool_decide_eq_true in Hx. simpl.
  split; apply bool_decide_eq_false; congruence.
Qed.

Lemma findUser_updateAddFriend_none id id' friend db :
  findUser id db = None →
  findUser id (updateAddFriend id' friend db) = None.
Proof.
  intros H. destruct (decide (id = id')) as [->|Hne].
  - unfold findUser, updateAddFriend in *. simpl.
    rewrite find_update_first_hit; [by rewrite H|done].
  - by rewrite findUser_updateAddFriend_other.
Qed.

(** [findByIdAndUpdate] on an id without a document changes nothing. *)
Lemma updateAddFriend_missing id friend db :
  findUser id db = None → updateAddFriend id friend db = db.
Proof.
  intros H. unfold updateAddFriend, findUser in *.
  rewrite update_first_none by done. by destruct db.
Qed.

(** The record found under an id after one [$addToSet] update. *)
Lemma findUser_updateAddFriend x id fr db :
  match findUser x db with
  | None => findUser x (updateAddFriend id fr db) = None
  | Some u =>
      ∃ u', findUser x (updateAddFriend id fr db) = Some u'
            ∧ ∀ y, y ∈ friends u' ↔ y ∈ friends u ∨ (x = id ∧ y = fr)
  end.
Proof.
  destruct (findUser x db) as [u|] eqn:Hu.
  - destruct (decide (x = id)) as [->|Hne].
    + exists (add_friend fr u). split.
      * by apply findUser_updateAddFriend_same.
      * intros y. simpl. rewrite elem_of_addToSet. tauto.
    + exists u. split.
      * by rewrite findUser_updateAddFriend_other.
      * intros y. tauto.
  - by apply findUser_updateAddFriend_none.
Qed.

Lemma findRequest_saveRequest doc db r :
  findRequest (request_id doc) db = Some r →
  findRequest (request_id doc) (saveRequest doc db) = Some doc.
Proof.
  intros H. unfold findRequest, saveRequest in *. simpl.
  rewrite find_update_first_hit.
  - by rewrite H.
  - intros x _. by apply bool_decide_eq_true.
Qed.

Lemma findRequest_saveRequest_other id doc db :
  id ≠ request_id doc →
  findRequest id (saveRequest doc db) = findRequest id db.
Proof.
  intros H. unfold findRequest, saveRequest. simpl.
  apply find_update_first_other.
  intros x Hx. apply bool_decide_eq_true in Hx.
  split; apply bool_decide_eq_false; congruence.
Qed.

Lemma findRequest_Some id db r :
  findRequest id db = Some r → r ∈ requests db ∧ request_id r = id.
Proof.
  intros H. apply find_some in H as [Hin Hid].
  split; [by apply list_elem_of_In|by apply bool_decide_eq_true in Hid].
Qed.

Lemma findUser_Some id db u :
  findUser id db = Some u → u ∈ users db ∧ user_id u = id.
Proof.
  intros H. apply find_some in H as [Hin Hid].
  split; [by apply list_elem_of_In|by apply bool_decide_eq_true in Hid].
Qed.

(** [findOne] finds a request between two users exactly when there is
    one. *)
Lemma findOneBetween_None a b db :
  findOneBetween a b db = None ↔ ∀ r, r ∈ requests db → ¬ between a b r.
Proof.
  unfold findOneBetween. split.
  - intros H r Hin Hb. apply list_elem_of_In in Hin.
    pose proof (find_none _ _ H r Hin) as Hf.
    by apply bool_decide_eq_false in Hf.
  - intros H. destruct (List.find _ _) as [r|] eqn:Hf; [|done].
    apply find_some in Hf as [Hin Hb]. apply bool_decide_eq_true in Hb.
    apply list_elem_of_In in Hin. by destruct (H r Hin).
Qed.

Lemma findOneBetween_Some a b db e :
  findOneBetween a b db = Some e → e ∈ requests db ∧ between a b e.
Proof.
  intros H. apply find_some in H as [Hin Hb].
  split; [by apply list_elem_of_In|by apply bool_decide_eq_true in Hb].
Qed.

Lemma between_sym a b r : between a b r ↔ between b a r.
Proof. unfold between. tauto. Qed.


Lemma findOneBetween_insert_new doc db :
  findOneBetween (sender doc) (recipient doc) db = None →
  findOneBetween (sender doc) (recipient doc) (insertRequest doc db)
  = Some doc
  ∧ findOneBetween (recipient doc) (sender doc) (insertRequest doc db)
    = Some doc.
Proof.
  intros H. unfold findOneBetween, insertRequest in *. simpl. split.
  - rewrite find_app_miss by done. rewrite bool_decide_eq_true_2; [done|].
    by left.
  - rewrite find_app_miss.
    + rewrite bool_decide_eq_true_2; [done|]. by right.
    + apply (findOneBetween_None (recipient doc) (sender doc) db).
      intros r Hr Hb. apply between_sym in Hb.
      by apply (proj1 (findOneBetween_None (sender doc) (recipient doc) db)
                  H r Hr).
Qed.

(** * Facts about the handlers *)

Lemma friends_checked cu rc myId rid :
  includes (friends cu) rid || includes (friends rc) (toString myId) = false
  ↔ includes (friends cu) rid = false ∧ (myId ∉ friends rc).
Proof.
  rewrite orb_false_iff, includes_toString, bool_decide_eq_false. done.
Qed.

Lemma recipient_checked (a b : ObjectId) :
  ¬ toString a ≠ toString b → a = b.
Proof. intros H. apply dec_stable in H. by apply toString_inj. Qed.

Section HandlerRuns.

Variable isValid : string → bool.

(** Every run of [sendFriendRequest]: how it ends, and what a rejected
    store call makes of it. *)
Lemma send_run_shapes db myId rid nid fs :
  let w := run (sendFriendRequest isValid myId rid nid) db fs in
  let quiet := run (sendFriendRequest isValid myId rid nid) db [] in
  (txn w = None ∧ sessionOpen w = false)
  ∧ ((events w = [] ∧ committed w = db)
     ∨ (∃ code msg,
          events w = [EvStartSession; EvStartTransaction;
                      EvRespond code (JMessage msg); EvEndSession]
          ∧ (code = 400 ∨ code = 404) ∧ committed w = db)
     ∨ (events w = rolled_back "Error in sendFriendRequest"
        ∧ committed w = db)
     ∨ (events w = [EvStartSession; EvStartTransaction; EvEndSession]
        ∧ committed w = db)
     ∨ (∃ ro,
          cast rid = Some ro
          ∧ events w
            = [EvStartSession; EvStartTransaction; EvCommit;
               EvRespond 201 (JRequest (mkFriendRequest nid myId ro Pending));
               EvEndSession]
          ∧ committed w
            = insertRequest (mkFriendRequest nid myId ro Pending) db
          ∧ isValid rid = true ∧ toString myId ≠ rid
          ∧ (∃ cu rc,
               findUser myId db = Some cu ∧ findUser ro db = Some rc
               ∧ includes (friends cu) rid
                 || includes (friends rc) (toString myId) = false)
          ∧ findOneBetween myId ro db = None
          ∧ findRequest nid db = None))
  ∧ ((no_call_rejected fs w
      ∧ events w = events quiet ∧ committed w = committed quiet)
     ∨ (some_call_rejected fs w ∧ committed w = db
        ∧ (events w = []
           ∨ events w = rolled_back "Error in sendFriendRequest"
           ∨ events w
             = [EvStartSession; EvStartTransaction; EvEndSession]))).
Proof.
  unfold sendFriendRequest, no_call_rejected, some_call_rejected.
  walk; (split; [by split|]); (split; [pick_send_shape|pick_rejection]).
Qed.

(** Every run of [acceptFriendRequest]: how it ends, and what a rejected
    store call makes of it. *)
Lemma accept_run_shapes db userId requestId fs :
  let w := run (acceptFriendRequest isValid userId requestId) db fs in
  let quiet := run (acceptFriendRequest isValid userId requestId) db [] in
  (txn w = None ∧ sessionOpen w = false)
  ∧ ((events w = [] ∧ committed w = db)
     ∨ (∃ code msg,
          events w = [EvStartSession; EvStartTransaction;
                      EvRespond code (JMessage msg); EvEndSession]
          ∧ (code = 400 ∨ code = 404 ∨ code = 403) ∧ committed w = db)
     ∨ (events w = rolled_back "Error in acceptFriendRequest"
        ∧ committed w = db)
     ∨ (events w = [EvStartSession; EvStartTransaction; EvEndSession]
        ∧ committed w = db)
     ∨ (∃ q r,
          cast requestId = Some q
          ∧ events w
            = [EvStartSession; EvStartTransaction; EvCommit;
               EvRespond 200 (JMessage "Request accepted"); EvEndSession]
          ∧ committed w = accepted_db r db
          ∧ isValid requestId = true
          ∧ findRequest q db = Some r
          ∧ recipient r = userId ∧ status r = Pending))
  ∧ ((no_call_rejected fs w
      ∧ events w = events quiet ∧ committed w = committed quiet)
     ∨ (some_call_rejected fs w ∧ committed w = db
        ∧ (events w = []
           ∨ events w = rolled_back "Error in acceptFriendRequest"
           ∨ events w
             = [EvStartSession; EvStartTransaction; EvEndSession]))).
Proof.
  unfold acceptFriendRequest, no_call_rejected, some_call_rejected.
  walk; (split; [by split|]);
    (split; [pick_accept_shape recipient_checked|pick_rejection]).
Qed.

(** A run of [acceptFriendRequest] either persists nothing and does not
    answer 200, or persists the acceptance of a pending request addressed
    to the caller. *)
Lemma accept_run_cases db userId requestId fs :
  let w := run (acceptFriendRequest isValid userId requestId) db fs in
  (committed w = db ∧ ∀ b, response w ≠ Some (200, b)) ∨
  (∃ q r, cast requestId = Some q ∧ isValid requestId = true
          ∧ findRequest q db = Some r
          ∧ recipient r = userId ∧ status r = Pending
          ∧ committed w = accepted_db r db
          ∧ response w = Some (200, JMessage "Request accepted")).
Proof.
  cbv zeta.
  destruct (accept_run_shapes db userId requestId fs)
    as (_ & [[He Hc]|[(c & m & He & Hcode & Hc)|[[He Hc]|[[He Hc]|
        (q & r & Hq & He & Hc & Hv & Hr & Hrec & Hst)]]]] & _).
  5: { right. exists q, r. unfold response. rewrite He. done. }
  all: left; split; [done|]; intros body; unfold response; rewrite He;
    simpl; try done.
  intros [= -> _]. by destruct Hcode as [?|[?|?]].
Qed.

(** A run of [sendFriendRequest] either persists nothing and does not
    answer 201, or persists the request it answers with. *)
Lemma send_run_cases db myId rid nid fs :
  let w := run (sendFriendRequest isValid myId rid nid) db fs in
  (committed w = db ∧ ∀ b, response w ≠ Some (201, b)) ∨
  (∃ ro, cast rid = Some ro
         ∧ committed w
           = insertRequest (mkFriendRequest nid myId ro Pending) db
         ∧ response w
           = Some (201, JRequest (mkFriendRequest nid myId ro Pending))
         ∧ isValid rid = true ∧ toString myId ≠ rid
         ∧ (∃ cu rc,
              findUser myId db = Some cu ∧ findUser ro db = Some rc
              ∧ includes (friends cu) rid = false ∧ (myId ∉ friends rc))
         ∧ findOneBetween myId ro db = None
         ∧ findRequest nid db = None).
Proof.
  cbv zeta.
  destruct (send_run_shapes db myId rid nid fs)
    as (_ & [[He Hc]|[(c & m & He & Hcode & Hc)|[[He Hc]|[[He Hc]|
        (ro & Hro & He & Hc & Hv & Hne & (cu & rc & Hcu & Hrc & Hinc)
         & Hnone & Hn)]]]] & _).
  5: { right. exists ro. unfold response. rewrite He.
       apply friends_checked in Hinc as [? ?].
       repeat split; try done. by exists cu, rc. }
  all: left; split; [done|]; intros body; unfold response; rewrite He;
    simpl; try done.
  intros [= -> _]. by destruct Hcode.
Qed.

(** The runs in which no store call is rejected. *)


Lemma send_quiet_friends db myId rid ro nid cu rc :
  isValid rid = true → toString myId ≠ rid → cast rid = Some ro →
  findUser myId db = Some cu → findUser ro db = Some rc →
  includes (friends cu) rid = true ∨ myId ∈ friends rc →
  run (sendFriendRequest isValid myId rid nid) db [] =
  mkWorld db None false []
    [EvStartSession; EvStartTransaction;
     EvRespond 400 (JMessage "Already friends"); EvEndSession].
Proof.
  intros Hv Hne Hro Hcu Hrc Hfr.
  assert (includes (friends cu) rid
          || includes (friends rc) (toString myId) = true).
  { apply orb_true_iff. rewrite includes_toString, bool_decide_eq_true.
    done. }
  unfold sendFriendRequest. walk; settle.
Qed.

Lemma send_quiet_existing db myId rid ro nid cu rc e :
  isValid rid = true → toString myId ≠ rid → cast rid = Some ro →
  findUser myId db = Some cu → findUser ro db = Some rc →
  includes (friends cu) rid = false → myId ∉ friends rc →
  findOneBetween myId ro db = Some e →
  run (sendFriendRequest isValid myId rid nid) db [] =
  mkWorld db None false []
    [EvStartSession; EvStartTransaction;
     EvRespond 400 (JMessage (if decide (status e = Pending)
                              then "Request already pending"
                              else "Already connected"));
     EvEndSession].
Proof.
  intros Hv Hne Hro Hcu Hrc Hf1 Hf2 He.
  pose proof (proj2 (friends_checked cu rc myId rid) (conj Hf1 Hf2)).
  unfold sendFriendRequest. walk; settle.
Qed.


(** The run of an acceptance whose four checks pass. *)
Lemma accept_quiet_success db userId requestId q r :
  isValid requestId = true → cast requestId = Some q →
  findRequest q db = Some r →
  recipient r = userId → status r = Pending →
  run (acceptFriendRequest isValid userId requestId) db [] =
  mkWorld (accepted_db r db) None false []
    [EvStartSession; EvStartTransaction; EvCommit;
     EvRespond 200 (JMessage "Request accepted"); EvEndSession].
Proof.
  intros Hv Hq Hr Hrec Hst. accept_prefix Hv. rewrite Hq. crunch.
  rewrite Hr. walk; first [congruence | reflexivity].
Qed.

Lemma accept_quiet_processed db userId requestId q r :
  isValid requestId = true → cast requestId = Some q →
  findRequest q db = Some r →
  recipient r = userId → status r ≠ Pending →
  run (acceptFriendRequest isValid userId requestId) db [] =
  mkWorld db None false []
    [EvStartSession; EvStartTransaction;
     EvRespond 400 (JMessage "Request already processed"); EvEndSession].
Proof.
  intros Hv Hq Hr Hrec Hst. accept_prefix Hv. rewrite Hq. crunch.
  rewrite Hr. walk; first [congruence | reflexivity | done].
Qed.

(** The four handlers that only read persist nothing. *)
Lemma readers_persist_nothing db u fs :
  committed (run (getRecommendedUsers u) db fs) = db
  ∧ committed (run (getMyFriends u) db fs) = db
  ∧ committed (run (getFriendRequests u) db fs) = db
  ∧ committed (run (getOutgoingFriendReqs u) db fs) = db.
Proof.
  repeat split.
  - unfold getRecommendedUsers. by walk.
  - unfold getMyFriends. walk; try done.
    all: destruct (findUser u db); by crunch.
  - unfold getFriendRequests. by walk.
  - unfold getOutgoingFriendReqs. by walk.
Qed.

End HandlerRuns.

(** * Reading handlers *)

(** C7: for a caller whose record exists, [getRecommendedUsers] answers
    200 with the summaries (id, name, avatar and the two languages) of
    exactly the onboarded users that are neither the caller nor in the
    caller's friends; so neither the caller nor a friend of the caller is
    in the answer. *)
Theorem getRecommendedUsers_exact db currentUserId me :
  findUser currentUserId db = Some me →
  ∃ docs,
    response (run (getRecommendedUsers currentUserId) db [])
    = Some (200, JUsers docs)
    ∧ (∀ s, s ∈ docs ↔
         ∃ u, u ∈ users db ∧ isOnboarded u = true
              ∧ user_id u ≠ currentUserId ∧ (user_id u ∉ friends me)
              ∧ s = mkSummary (user_id u) (fullName u) (profilePic u)
                      (nativeLanguage u) (learningLanguage u))
    ∧ (∀ s, s ∈ docs →
         sum_id s ≠ currentUserId ∧ (sum_id s ∉ friends me)).
Proof.
  intros Hme.
  assert (∀ s,
    s ∈ summary <$> findRecommended (friends me ++ [currentUserId]) db ↔
    ∃ u, u ∈ users db ∧ isOnboarded u = true
         ∧ user_id u ≠ currentUserId ∧ (user_id u ∉ friends me)
         ∧ s = summary u) as Hchar.
  { intros s. rewrite list_elem_of_fmap. unfold findRecommended. split.
    - intros (u & -> & Hu). apply list_elem_of_filter in Hu as [[Hn Ho] Hu].
      exists u. rewrite elem_of_app, list_elem_of_singleton in Hn.
      repeat split; try done; intros ?; apply Hn; tauto.
    - intros (u & Hu & Ho & Hne & Hnf & ->). exists u. split; [done|].
      apply list_elem_of_filter. split; [|done]. split; [|done].
      rewrite elem_of_app, list_elem_of_singleton. by intros [?|?]. }
  exists (summary <$> findRecommended (friends me ++ [currentUserId]) db).
  split; [|split; [exact Hchar|]].
  - unfold getRecommendedUsers. crunch. by rewrite Hme.
  - intros s Hs. apply Hchar in Hs as (u & _ & _ & Hne & Hnf & ->). done.
Qed.

Lemma populateCardNe_self userId db : populateCardNe userId userId db = None.
Proof.
  unfold populateCardNe.
  destruct (List.find _ _) as [u|] eqn:Hf; [|done].
  apply find_some in Hf as [_ Hu]. apply bool_decide_eq_true in Hu.
  by destruct Hu.
Qed.

(** The views of the accepted requests of a user all have a [null] party:
    the one that is the user. *)
Lemma accepted_views_nil userId db :
  filter (λ req, is_null (view_sender req) = false
                 ∧ is_null (view_recipient req) = false)
    ((λ r, mkView (request_id r)
                  (PartyCard (populateCardNe userId (sender r) db))
                  (PartyCard (populateCardNe userId (recipient r) db))
                  (status r))
     <$> filter (λ r, (sender r = userId ∧ status r = Accepted)
                      ∨ (recipient r = userId ∧ status r = Accepted))
                (requests db))
  = [].
Proof.
  apply elem_of_nil_inv. intros v Hv.
  apply list_elem_of_filter in Hv as [[Hs Hr] Hv].
  apply list_elem_of_fmap in Hv as (r & -> & Hin).
  apply list_elem_of_filter in Hin as [[[<- _]|[<- _]] _]; simpl in *.
  - by rewrite populateCardNe_self in Hs.
  - by rewrite populateCardNe_self in Hr.
Qed.

(** Whatever is stored, the [acceptedReqs] of an answer of
    [getFriendRequests] is empty. *)
Lemma getFriendRequests_accepted_nil db userId fs inc acc :
  response (run (getFriendRequests userId) db fs)
  = Some (200, JRequests inc acc) →
  acc = [].
Proof.
  unfold getFriendRequests. walk; unfold response; simpl;
    intros H; simplify_eq.
  all: apply accepted_views_nil.
Qed.

(** X1: [getMyFriends] answers 404 when the caller has no record;
    otherwise it answers 200 with the summaries of the caller's friends
    whose records exist, so never more entries than friends, and, when
    every friend resolves, one entry per friend in the order of the
    array. *)
Theorem getMyFriends_exact db userId :
  (findUser userId db = None →
     response (run (getMyFriends userId) db [])
     = Some (404, JMessage "User not found"))
  ∧ (∀ me, findUser userId db = Some me →
       ∃ docs,
         response (run (getMyFriends userId) db []) = Some (200, JUsers docs)
         ∧ (∀ s, s ∈ docs ↔
              ∃ id u, id ∈ friends me ∧ findUser id db = Some u
                      ∧ s = mkSummary (user_id u) (fullName u)
                              (profilePic u) (nativeLanguage u)
                              (learningLanguage u))
         ∧ length docs ≤ length (friends me)
         ∧ ((∀ id, id ∈ friends me → is_Some (findUser id db)) →
            sum_id <$> docs = friends me)).
Proof.
  split.
  - intros Hnone. unfold getMyFriends. crunch. by rewrite Hnone.
  - intros me Hme. exists (populateFriends (friends me) db).
    split; [|split; [|split]].
    + unfold getMyFriends. crunch. by rewrite Hme.
    + intros s. unfold populateFriends, populateSummary.
      rewrite list_elem_of_omap. split.
      * intros (id & Hid & Hs).
        destruct (findUser id db) as [u|] eqn:Hu; [|done].
        injection Hs as <-. by exists id, u.
      * intros (id & u & Hid & Hu & ->). exists id. by rewrite Hu.
    + unfold populateFriends, populateSummary.
      induction (friends me) as [|id ids IH]; [done|].
      rewrite (omap_app _ [id] ids : omap _ (id :: ids) = _).
      rewrite length_app. simpl.
      destruct (findUser id db); simpl; lia.
    + unfold populateFriends, populateSummary.
      induction (friends me) as [|id ids IH]; intros Hall; [done|].
      simpl. destruct (Hall id) as [u Hu]; [by left|].
      rewrite Hu. simpl. destruct (findUser_Some _ _ _ Hu) as [_ ->].
      f_equal. apply IH. intros id' Hid'. apply Hall. by right.
Qed.

(** X2: [getOutgoingFriendReqs] answers 200 with exactly the pending
    requests sent by the caller, each with its recipient populated to the
    summary of the record, or to [null] when there is none. *)
Theorem getOutgoingFriendReqs_exact db userId :
  ∃ docs,
    response (run (getOutgoingFriendReqs userId) db [])
    = Some (200, JOutgoing docs)
    ∧ (∀ v, v ∈ docs ↔
         ∃ r, r ∈ requests db ∧ sender r = userId ∧ status r = Pending
              ∧ v = mkView (request_id r) (PartyRef userId)
                      (PartySummary
                         ((λ u, mkSummary (user_id u) (fullName u)
                                  (profilePic u) (nativeLanguage u)
                                  (learningLanguage u))
                          <$> findUser (recipient r) db))
                      Pending)
    ∧ length docs ≤ length (requests db).
Proof.
  eexists. split; [|split].
  - unfold getOutgoingFriendReqs. crunch. reflexivity.
  - intros v. rewrite list_elem_of_fmap. split.
    + intros (r & -> & Hr). apply list_elem_of_filter in Hr as [[Hs Hp] Hr].
      exists r. rewrite Hs, Hp. done.
    + intros (r & Hr & Hs & Hp & ->). exists r. rewrite Hs, Hp.
      split; [done|]. by apply list_elem_of_filter.
  - rewrite length_fmap. apply length_filter.
Qed.

(** X3: the [incomingReqs] of [getFriendRequests] are exactly the pending
    requests addressed to the caller, each with its sender populated; a
    request whose sender has no record is still listed, with a [null]
    sender. *)
Theorem getFriendRequests_incoming db userId :
  ∃ inc acc,
    response (run (getFriendRequests userId) db [])
    = Some (200, JRequests inc acc)
    ∧ (∀ v, v ∈ inc ↔
         ∃ r, r ∈ requests db ∧ recipient r = userId ∧ status r = Pending
              ∧ v = mkView (request_id r)
                      (PartySummary
                         ((λ u, mkSummary (user_id u) (fullName u)
                                  (profilePic u) (nativeLanguage u)
                                  (learningLanguage u))
                          <$> findUser (sender r) db))
                      (PartyRef userId) Pending)
    ∧ (∀ r, r ∈ requests db → recipient r = userId → status r = Pending →
         findUser (sender r) db = None →
         mkView (request_id r) (PartySummary None) (PartyRef userId) Pending
         ∈ inc).
Proof.
  eexists _, _. split; [|split].
  - unfold getFriendRequests. crunch. reflexivity.
  - intros v. rewrite list_elem_of_fmap. split.
    + intros (r & -> & Hr). apply list_elem_of_filter in Hr as [[Hs Hp] Hr].
      exists r. rewrite Hs, Hp. done.
    + intros (r & Hr & Hs & Hp & ->). exists r. rewrite Hs, Hp.
      split; [done|]. by apply list_elem_of_filter.
  - intros r Hr Hrec Hp Hnone. apply list_elem_of_fmap. exists r.
    unfold populateSummary. rewrite Hnone, Hrec, Hp.
    split; [done|]. by apply list_elem_of_filter.
Qed.

(** X4: each of the four handlers that only read persists nothing and
    sends exactly one response, whatever the store calls do: an answer
    other than 500, or, only when a store call was rejected, the logged
    error followed by 500 "Server error". *)
Theorem readers_answer_once db u fs :
  (committed (run (getRecommendedUsers u) db fs) = db
   ∧ reader_outcome "Error in getRecommendedUsers" fs
       (run (getRecommendedUsers u) db fs))
  ∧ (committed (run (getMyFriends u) db fs) = db
     ∧ reader_outcome "Error in getMyFriends" fs
         (run (getMyFriends u) db fs))
  ∧ (committed (run (getFriendRequests u) db fs) = db
     ∧ reader_outcome "Error in getFriendRequests" fs
         (run (getFriendRequests u) db fs))
  ∧ (committed (run (getOutgoingFriendReqs u) db fs) = db
     ∧ reader_outcome "Error in getOutgoingFriendReqs" fs
         (run (getOutgoingFriendReqs u) db fs)).
Proof.
  unfold reader_outcome. split; [|split; [|split]].
  - unfold getRecommendedUsers. walk; (split; [reflexivity|]); pick_reader.
  - unfold getMyFriends. walk; try destruct (findUser u db); crunch;
      (split; [reflexivity|]); pick_reader.
  - unfold getFriendRequests. walk; (split; [reflexivity|]); pick_reader.
  - unfold getOutgoingFriendReqs. walk; (split; [reflexivity|]); pick_reader.
Qed.

Section ControllerFacts.

Variable isValid : string → bool.

(** ** Acceptance *)

Lemma accepted_db_requests r db :
  requests (accepted_db r db)
  = requests (saveRequest (set_status Accepted r) db).
Proof. done. Qed.

Lemma accepted_db_request db q r :
  findRequest q db = Some r →
  findRequest q (accepted_db r db)
  = Some (mkFriendRequest q (sender r) (recipient r) Accepted).
Proof.
  intros H. destruct (findRequest_Some _ _ _ H) as [_ <-].
  apply (findRequest_saveRequest (set_status Accepted r) db r H).
Qed.

Lemma same_profile_add_friend x u : same_profile u (add_friend x u).
Proof. by repeat split. Qed.

Lemma accepted_db_sender db r s :
  findUser (sender r) db = Some s →
  ∃ s', findUser (sender r) (accepted_db r db) = Some s'
        ∧ same_profile s s'
        ∧ friends s' = addToSet (recipient r) (friends s).
Proof.
  intros H. unfold accepted_db.
  pose proof (findUser_updateAddFriend_same (sender r) (recipient r)
                (saveRequest (set_status Accepted r) db) s H) as H1.
  destruct (decide (sender r = recipient r)) as [Heq|Hne].
  - rewrite <- Heq in *.
    erewrite findUser_updateAddFriend_same by exact H1.
    eexists; split; [done|]. split; [by repeat split|].
    simpl. apply addToSet_idemp.
  - rewrite findUser_updateAddFriend_other by done.
    eexists; split; [exact H1|]. split; [by repeat split|done].
Qed.

Lemma accepted_db_recipient db r t :
  findUser (recipient r) db = Some t →
  ∃ t', findUser (recipient r) (accepted_db r db) = Some t'
        ∧ same_profile t t'
        ∧ friends t' = addToSet (sender r) (friends t).
Proof.
  intros H. unfold accepted_db.
  destruct (decide (sender r = recipient r)) as [Heq|Hne].
  - rewrite Heq in *.
    pose proof (findUser_updateAddFriend_same (recipient r) (recipient r)
                  (saveRequest (set_status Accepted r) db) t H) as H1.
    erewrite findUser_updateAddFriend_same by exact H1.
    eexists; split; [done|]. split; [by repeat split|].
    simpl. apply addToSet_idemp.
  - erewrite findUser_updateAddFriend_same.
    + eexists; split; [done|]. split; [by repeat split|done].
    + by rewrite findUser_updateAddFriend_other.
Qed.

(** C1 (as amended): when the User records of the sender and of the
    recipient both exist, accepting a pending request addressed to the
    caller answers 200, and every run that answers 200 has set the
    request to accepted and has added each party to the friends of the
    other with [$addToSet]: each is then in the other's friends, an id
    that was already present leaves the array as it was, and one that was
    not is appended.  The request is the one whose id [requestId]
    spells, in either letter case. *)
Theorem acceptFriendRequest_success db userId requestId q r s t :
  cast requestId = Some q →
  findRequest q db = Some r →
  findUser (sender r) db = Some s →
  findUser (recipient r) db = Some t →
  (isValid requestId = true → status r = Pending → recipient r = userId →
     response (run (acceptFriendRequest isValid userId requestId) db [])
     = Some (200, JMessage "Request accepted"))
  ∧ (∀ fs body,
       let w := run (acceptFriendRequest isValid userId requestId) db fs in
       response w = Some (200, body) →
       status r = Pending ∧ recipient r = userId ∧
       findRequest q (committed w)
       = Some (mkFriendRequest q (sender r) (recipient r) Accepted) ∧
       ∃ s' t',
         findUser (sender r) (committed w) = Some s' ∧
         findUser (recipient r) (committed w) = Some t' ∧
         friends s' = addToSet (recipient r) (friends s) ∧
         friends t' = addToSet (sender r) (friends t) ∧
         recipient r ∈ friends s' ∧ sender r ∈ friends t' ∧
         (recipient r ∈ friends s → friends s' = friends s) ∧
         (sender r ∈ friends t → friends t' = friends t) ∧
         (recipient r ∉ friends s → friends s' = friends s ++ [recipient r]) ∧
         (sender r ∉ friends t → friends t' = friends t ++ [sender r])).
Proof.
  intros Hq Hr Hs Ht. split.
  - intros Hv Hst Hrec.
    by rewrite (accept_quiet_success isValid db userId requestId q r).
  - intros fs body w Hok.
    destruct (accept_run_cases isValid db userId requestId fs)
      as [[_ Hno]|(q' & r' & Hq' & Hv & Hr' & Hrec & Hst & Hc & _)].
    { by destruct (Hno body). }
    assert (q' = q) as -> by congruence.
    assert (r' = r) as -> by congruence.
    subst w. rewrite Hc.
    destruct (accepted_db_sender db r s Hs) as (s' & Hs' & _ & Hfs).
    destruct (accepted_db_recipient db r t Ht) as (t' & Ht' & _ & Hft).
    split; [done|]. split; [done|]. split.
    { by apply accepted_db_request. }
    exists s', t'. rewrite Hfs, Hft.
    repeat split; try done;
      auto using addToSet_elem, addToSet_present, addToSet_absent.
Qed.

(** C5: the precondition failures of [acceptFriendRequest] in their order
    of precedence, InvalidArgument (400), NotFound (404), Forbidden (403),
    Conflict (400, already processed), the request being looked up by the
    id that [requestId] spells; whenever one of them applies, nothing that
    is persisted changes, whatever the store calls do. *)
Theorem acceptFriendRequest_failure_precedence db userId requestId :
  let quiet := run (acceptFriendRequest isValid userId requestId) db [] in
  (isValid requestId = false →
     response quiet = Some (400, JMessage "Invalid request ID")) ∧
  (∀ q, isValid requestId = true → cast requestId = Some q →
     findRequest q db = None →
     response quiet = Some (404, JMessage "Request not found")) ∧
  (∀ q r, isValid requestId = true → cast requestId = Some q →
     findRequest q db = Some r → recipient r ≠ userId →
     response quiet = Some (403, JMessage "Unauthorized")) ∧
  (∀ q r, isValid requestId = true → cast requestId = Some q →
     findRequest q db = Some r → recipient r = userId →
     status r ≠ Pending →
     response quiet = Some (400, JMessage "Request already processed")) ∧
  ((isValid requestId = false
    ∨ ∃ q, cast requestId = Some q
           ∧ (findRequest q db = None
              ∨ ∃ r, findRequest q db = Some r
                     ∧ (recipient r ≠ userId ∨ status r ≠ Pending))) →
   ∀ fs,
     let w := run (acceptFriendRequest isValid userId requestId) db fs in
     committed w = db ∧ ∀ body, response w ≠ Some (200, body)).
Proof.
  cbv zeta. split; [|split; [|split; [|split]]].
  - intros Hv. unfold acceptFriendRequest. rewrite Hv. by crunch.
  - intros q Hv Hq Hr. accept_prefix Hv. rewrite Hq. crunch. by rewrite Hr.
  - intros q r Hv Hq Hr Hne. accept_prefix Hv. rewrite Hq. crunch.
    rewrite Hr. walk;
      first [ done
            | match goal with
              | H : ¬ _ ≠ _ |- _ => by apply recipient_checked in H
              end ].
  - intros q r Hv Hq Hr Heq Hst. accept_prefix Hv. rewrite Hq. crunch.
    rewrite Hr. walk; first [congruence | done].
  - intros Hfail fs.
    destruct (accept_run_cases isValid db userId requestId fs)
      as [Hsame|(q & r & Hq & Hv & Hr & Hrec & Hst & _)]; [done|].
    destruct Hfail as [Hf|(q' & Hq' & Hf)]; [congruence|].
    assert (q' = q) as -> by congruence.
    destruct Hf as [Hf|(r' & Hr' & Hf)]; [congruence|].
    assert (r' = r) as -> by congruence. by destruct Hf.
Qed.

(** C9: a pending request accepted by its recipient is answered 200 and
    becomes accepted whether or not the two User records exist.  The
    update of a record that is missing changes nothing and is not
    reported, while the record that exists still gains the other party:
    with the sender's record missing the recipient's friends gain the
    sender, with the recipient's record missing the sender's friends gain
    the recipient, and with both missing no user record changes. *)
Theorem acceptFriendRequest_missing_user db userId requestId q r :
  isValid requestId = true → cast requestId = Some q →
  findRequest q db = Some r →
  recipient r = userId → status r = Pending →
  let w := run (acceptFriendRequest isValid userId requestId) db [] in
  response w = Some (200, JMessage "Request accepted") ∧
  findRequest q (committed w)
  = Some (mkFriendRequest q (sender r) (recipient r) Accepted) ∧
  (findUser (sender r) db = None →
     findUser (sender r) (committed w) = None
     ∧ ∀ t, findUser (recipient r) db = Some t →
         ∃ t', findUser (recipient r) (committed w) = Some t'
               ∧ same_profile t t'
               ∧ sender r ∈ friends t'
               ∧ (sender r ∉ friends t → friends t' = friends t ++ [sender r])
               ∧ (sender r ∈ friends t → friends t' = friends t)) ∧
  (findUser (recipient r) db = None →
     findUser (recipient r) (committed w) = None
     ∧ ∀ s, findUser (sender r) db = Some s →
         ∃ s', findUser (sender r) (committed w) = Some s'
               ∧ same_profile s s'
               ∧ recipient r ∈ friends s'
               ∧ (recipient r ∉ friends s →
                  friends s' = friends s ++ [recipient r])
               ∧ (recipient r ∈ friends s → friends s' = friends s)) ∧
  (findUser (sender r) db = None → findUser (recipient r) db = None →
     users (committed w) = users db).
Proof.
  intros Hv Hq Hr Hrec Hst w. subst w.
  rewrite (accept_quiet_success isValid db userId requestId q r) by done.
  split; [done|]. cbn [committed]. split.
  { by apply accepted_db_request. }
  split; [|split].
  - intros Hs. split.
    + unfold accepted_db. do 2 apply findUser_updateAddFriend_none. exact Hs.
    + intros t Ht.
      destruct (accepted_db_recipient db r t Ht) as (t' & Ht' & Hp & Hft).
      exists t'. rewrite Hft.
      repeat split; try apply Hp;
        auto using addToSet_elem, addToSet_present, addToSet_absent.
  - intros Ht. split.
    + unfold accepted_db. do 2 apply findUser_updateAddFriend_none. exact Ht.
    + intros s Hs.
      destruct (accepted_db_sender db r s Hs) as (s' & Hs' & Hp & Hfs).
      exists s'. rewrite Hfs.
      repeat split; try apply Hp;
        auto using addToSet_elem, addToSet_present, addToSet_absent.
  - intros Hs Ht. unfold accepted_db.
    rewrite (updateAddFriend_missing (recipient r) (sender r)).
    + by rewrite (updateAddFriend_missing (sender r) (recipient r)).
    + by apply findUser_updateAddFriend_none.
Qed.

(** ** Sending *)

Lemma between_unique rs a b e r :
  one_per_pair rs → e ∈ rs → r ∈ rs → between a b e → between a b r → e = r.
Proof.
  intros Hone He Hr Hbe Hbr.
  apply list_elem_of_lookup in He as [i Hi].
  apply list_elem_of_lookup in Hr as [j Hj].
  assert (i = j) as ->; [|congruence].
  apply (Hone i j e r Hi Hj).
  unfold between in *. intuition congruence.
Qed.

(** Creating a request keeps at most one request per pair. *)
Lemma insert_one_per_pair db doc :
  one_per_pair (requests db) →
  findOneBetween (sender doc) (recipient doc) db = None →
  one_per_pair (requests (insertRequest doc db)).
Proof.
  intros Hone Hnone. rewrite findOneBetween_None in Hnone.
  unfold insertRequest, one_per_pair. simpl. intros i j r1 r2 Hi Hj Hb.
  apply lookup_app_Some in Hi as [Hi|[Hil Hi]];
    apply lookup_app_Some in Hj as [Hj|[Hjl Hj]].
  - by apply (Hone i j r1 r2).
  - apply list_lookup_singleton_Some in Hj as [_ <-].
    apply list_elem_of_lookup_2 in Hi.
    destruct (Hnone r1 Hi). unfold between in *. intuition congruence.
  - apply list_lookup_singleton_Some in Hi as [_ <-].
    apply list_elem_of_lookup_2 in Hj.
    by destruct (Hnone r2 Hj).
  - apply list_lookup_singleton_Some in Hi as [Hi _].
    apply list_lookup_singleton_Some in Hj as [Hj _]. lia.
Qed.

(** C3 (as amended): when a request between the caller and the user that
    [recipientId] denotes exists and the earlier checks pass (valid id,
    not the caller's own id string, both records present, neither friends
    check succeeding), [sendFriendRequest] answers 400 with "Request
    already pending" or "Already connected" after the status of the
    record found, which is the existing record when there is one per
    pair; whenever a request between the two exists nothing is stored and
    no 201 is sent, whatever the other checks and the store calls do; and
    every call keeps at most one request per pair. *)
Theorem sendFriendRequest_existing_request db myId rid nid :
  (∀ ro r cu rc,
     cast rid = Some ro →
     r ∈ requests db → between myId ro r →
     isValid rid = true → toString myId ≠ rid →
     findUser myId db = Some cu → findUser ro db = Some rc →
     includes (friends cu) rid = false → myId ∉ friends rc →
     ∃ e, findOneBetween myId ro db = Some e ∧ between myId ro e ∧
          (one_per_pair (requests db) → e = r) ∧
          response (run (sendFriendRequest isValid myId rid nid) db [])
          = Some (400, JMessage (if decide (status e = Pending)
                                 then "Request already pending"
                                 else "Already connected")))
  ∧ (∀ ro r fs,
       cast rid = Some ro →
       r ∈ requests db → between myId ro r →
       let w := run (sendFriendRequest isValid myId rid nid) db fs in
       committed w = db ∧ ∀ body, response w ≠ Some (201, body))
  ∧ (∀ fs,
       one_per_pair (requests db) →
       one_per_pair (requests
         (committed (run (sendFriendRequest isValid myId rid nid) db fs)))).
Proof.
  split; [|split].
  - intros ro r cu rc Hro Hin Hb Hv Hne Hcu Hrc Hf1 Hf2.
    destruct (findOneBetween myId ro db) as [e|] eqn:He.
    2: { rewrite findOneBetween_None in He. by destruct (He r Hin). }
    destruct (findOneBetween_Some _ _ _ _ He) as [Hein Hbe].
    exists e. split; [done|]. split; [done|]. split.
    { intros Hone. by apply (between_unique (requests db) myId ro). }
    by rewrite (send_quiet_existing isValid db myId rid ro nid cu rc e).
  - intros ro r fs Hro Hin Hb w.
    destruct (send_run_cases isValid db myId rid nid fs)
      as [Hsame|(ro' & Hro' & _ & _ & _ & _ & _ & Hnone & _)]; [done|].
    assert (ro' = ro) as -> by congruence.
    rewrite findOneBetween_None in Hnone. by destruct (Hnone r Hin).
  - intros fs Hone.
    destruct (send_run_cases isValid db myId rid nid fs)
      as [[-> _]|(ro & _ & -> & _ & _ & _ & _ & Hnone & _)]; [done|].
    by apply insert_one_per_pair.
Qed.



(** ** Sequences of calls *)

(** One call changes the requests in one of two ways at most. *)
Lemma step_cases db c fs :
  let db' := step isValid db (c, fs) in
  requests db' = requests db
  ∨ (∃ u rid ro nid,
       c = CallSend u rid nid ∧ cast rid = Some ro
       ∧ requests db' = requests db ++ [mkFriendRequest nid u ro Pending])
  ∨ (∃ u rid q r i,
       c = CallAccept u rid ∧ cast rid = Some q
       ∧ findRequest q db = Some r ∧ recipient r = u
       ∧ status r = Pending
       ∧ requests db !! i = Some r
       ∧ requests db'
         = <[i := mkFriendRequest (request_id r) (sender r) (recipient r)
                    Accepted]> (requests db)).
Proof.
  unfold step. simpl.
  destruct (readers_persist_nothing db
              match c with
              | CallRecommended u | CallMyFriends u | CallSend u _ _
              | CallAccept u _ | CallRequests u | CallOutgoing u => u
              end fs) as (H1 & H2 & H3 & H4).
  destruct c as [u|u|u rid nid|u rid|u|u]; simpl;
    rewrite ?H1, ?H2, ?H3, ?H4; auto.
  - destruct (send_run_cases isValid db u rid nid fs)
      as [[-> _]|(ro & Hro & -> & _)]; auto.
    right. left. by exists u, rid, ro, nid.
  - destruct (accept_run_cases isValid db u rid fs)
      as [[-> _]|(q & r & Hq & _ & Hr & Hrec & Hst & -> & _)]; auto.
    right. right.
    destruct (findRequest_Some _ _ _ Hr) as [_ Hid].
    assert (List.find (λ x, bool_decide (request_id x
                                        = request_id (set_status Accepted r)))
              (requests db) = Some r) as Hf.
    { unfold findRequest in Hr. simpl. by rewrite Hid. }
    destruct (update_first_insert _ (λ _, set_status Accepted r) _ _ Hf)
      as (i & Hi & Hupd).
    exists u, rid, q, r, i. repeat split; try done.
Qed.

Lemma step_keeps db c i r :
  requests db !! i = Some r →
  ∃ r', requests (step isValid db c) !! i = Some r'
        ∧ request_id r' = request_id r ∧ sender r' = sender r
        ∧ recipient r' = recipient r
        ∧ (status r = Accepted → status r' = Accepted).
Proof.
  intros Hi. destruct c as [c fs].
  destruct (step_cases db c fs)
    as [->|[(u & rid & ro & nid & _ & _ & ->)
           |(u & rid & q & r0 & j & _ & _ & _ & _ & _ & Hj & ->)]].
  - by exists r.
  - exists r. by rewrite (lookup_app_l_Some _ _ _ _ Hi).
  - destruct (decide (i = j)) as [->|Hne].
    + assert (r0 = r) as -> by congruence.
      exists (mkFriendRequest (request_id r) (sender r) (recipient r)
                Accepted).
      split; [|done].
      apply list_lookup_insert_eq. by apply lookup_lt_Some in Hi.
    + exists r. split; [|done]. by rewrite list_lookup_insert_ne.
Qed.

(** Over a sequence of calls a stored request keeps its place, its id and
    its parties, and stays accepted once it is. *)
Lemma exec_keeps cs db i r :
  requests db !! i = Some r →
  ∃ r', requests (exec isValid db cs) !! i = Some r'
        ∧ request_id r' = request_id r ∧ sender r' = sender r
        ∧ recipient r' = recipient r
        ∧ (status r = Accepted → status r' = Accepted).
Proof.
  revert db i r. induction cs as [|c cs IH]; intros db i r Hi.
  - by exists r.
  - destruct (step_keeps db c i r Hi) as (r1 & H1 & Hid1 & Hs1 & Hr1 & Ha1).
    destruct (IH _ i r1 H1) as (r2 & H2 & Hid2 & Hs2 & Hr2 & Ha2).
    exists r2. simpl. repeat split; try congruence. auto.
Qed.

(** C8: a request is created pending; a call changes the status of a
    stored request only when it is an acceptance by the recipient of a
    pending request, which makes that one request accepted and leaves the
    others as they are; and over any sequence of calls a stored request
    keeps its place, its id and its two parties, and once accepted stays
    accepted. *)
Theorem friendRequest_lifecycle db :
  (∀ c fs,
     let db' := step isValid db (c, fs) in
     requests db' = requests db
     ∨ (∃ u rid ro nid,
          c = CallSend u rid nid ∧ cast rid = Some ro
          ∧ requests db'
            = requests db ++ [mkFriendRequest nid u ro Pending])
     ∨ (∃ u rid q r i,
          c = CallAccept u rid ∧ cast rid = Some q
          ∧ findRequest q db = Some r ∧ recipient r = u
          ∧ status r = Pending
          ∧ requests db !! i = Some r
          ∧ requests db'
            = <[i := mkFriendRequest (request_id r) (sender r)
                       (recipient r) Accepted]> (requests db)))
  ∧ (∀ cs i r,
       requests db !! i = Some r →
       ∃ r', requests (exec isValid db cs) !! i = Some r'
             ∧ request_id r' = request_id r ∧ sender r' = sender r
             ∧ recipient r' = recipient r
             ∧ (status r = Accepted → status r' = Accepted)).
Proof.
  split; [apply step_cases|].
  intros cs i r. apply exec_keeps.
Qed.

End ControllerFacts.

(** * Sequences of calls: what they keep *)

(** The record found under an id after an acceptance. *)
Lemma findUser_accepted_db x r db :
  match findUser x db with
  | None => findUser x (accepted_db r db) = None
  | Some u =>
      ∃ u', findUser x (accepted_db r db) = Some u'
            ∧ ∀ y, y ∈ friends u' ↔
                   y ∈ friends u
                   ∨ (x = sender r ∧ y = recipient r)
                   ∨ (x = recipient r ∧ y = sender r)
  end.
Proof.
  unfold accepted_db.
  set (db0 := saveRequest (set_status Accepted r) db).
  assert (findUser x db0 = findUser x db) as H0 by done.
  pose proof (findUser_updateAddFriend x (sender r) (recipient r) db0) as H1.
  rewrite H0 in H1.
  pose proof (findUser_updateAddFriend x (recipient r) (sender r)
                (updateAddFriend (sender r) (recipient r) db0)) as H2.
  destruct (findUser x db) as [u|].
  - destruct H1 as (u1 & Hu1 & Hm1). rewrite Hu1 in H2.
    destruct H2 as (u2 & Hu2 & Hm2). exists u2. split; [done|].
    intros y. rewrite Hm2, Hm1. tauto.
  - by rewrite H1 in H2.
Qed.

Lemma accepted_db_symmetric r db :
  symmetric_friends db → symmetric_friends (accepted_db r db).
Proof.
  intros Hsym a b u' v' Ha Hb.
  pose proof (findUser_accepted_db a r db) as Hfa.
  pose proof (findUser_accepted_db b r db) as Hfb.
  destruct (findUser a db) as [u|] eqn:Hu; [|congruence].
  destruct (findUser b db) as [v|] eqn:Hv; [|congruence].
  destruct Hfa as (u2 & Hu2 & Hmu). destruct Hfb as (v2 & Hv2 & Hmv).
  simplify_eq. rewrite Hmu, Hmv. pose proof (Hsym a b u v Hu Hv).
  intuition congruence.
Qed.

Lemma users_accepted_db_lookup r db i u :
  users db !! i = Some u →
  ∃ u', users (accepted_db r db) !! i = Some u'
        ∧ same_profile u u' ∧ ∀ y, y ∈ friends u → y ∈ friends u'.
Proof.
  intros Hi. unfold accepted_db, updateAddFriend. simpl.
  destruct (update_first_lookup
              (λ x, bool_decide (user_id x = sender r))
              (add_friend (recipient r)) (users db) i u Hi)
    as (u1 & Hu1 & H1).
  destruct (update_first_lookup
              (λ x, bool_decide (user_id x = recipient r))
              (add_friend (sender r)) _ i u1 Hu1)
    as (u2 & Hu2 & H2).
  exists u2. split; [exact Hu2|].
  destruct H1 as [->|[_ ->]], H2 as [->|[_ ->]]; simpl;
    (split; [done|]); intros y Hy;
    rewrite ?elem_of_addToSet; auto.
Qed.

Lemma in_saveRequest r db y :
  findRequest (request_id r) db = Some r →
  y ∈ requests (saveRequest (set_status Accepted r) db) →
  y ∈ requests db ∨ y = set_status Accepted r.
Proof.
  intros Hr Hy. apply list_elem_of_lookup in Hy as [i Hi].
  apply update_first_lookup_inv in Hi as (x & Hx & [->|[_ ->]]).
  - left. by apply list_elem_of_lookup_2 in Hx.
  - by right.
Qed.

Lemma saveRequest_lookup_inv r db i y :
  findRequest (request_id r) db = Some r →
  requests (saveRequest (set_status Accepted r) db) !! i = Some y →
  ∃ x, requests db !! i = Some x
       ∧ sender y = sender x ∧ recipient y = recipient x.
Proof.
  intros Hr Hi.
  apply update_first_lookup_inv in Hi as (x & Hx & [->|[Hf ->]]).
  - by exists x.
  - exists x. split; [done|]. simpl in Hf.
    unfold findRequest in Hr. by simplify_eq.
Qed.

(** An acceptance leaves the request found under another id as it is. *)
Lemma findRequest_accepted_db_other q r db :
  q ≠ request_id r →
  findRequest q (accepted_db r db) = findRequest q db.
Proof.
  intros Hne.
  by apply (findRequest_saveRequest_other q (set_status Accepted r) db).
Qed.

Lemma findRequest_insert_old q doc db x :
  findRequest q db = Some x →
  findRequest q (insertRequest doc db) = Some x.
Proof. intros H. by apply find_app_hit. Qed.

Section Invariants.

Variable isValid : string → bool.

(** What one call can do to the store. *)
Lemma step_db_cases db c fs :
  let db' := step isValid db (c, fs) in
  db' = db
  ∨ (∃ u ro nid,
       db' = insertRequest (mkFriendRequest nid u ro Pending) db
       ∧ findOneBetween u ro db = None
       ∧ findRequest nid db = None)
  ∨ (∃ r,
       db' = accepted_db r db
       ∧ findRequest (request_id r) db = Some r ∧ status r = Pending).
Proof.
  unfold step. simpl.
  destruct (readers_persist_nothing db
              match c with
              | CallRecommended u | CallMyFriends u | CallSend u _ _
              | CallAccept u _ | CallRequests u | CallOutgoing u => u
              end fs) as (H1 & H2 & H3 & H4).
  destruct c as [u|u|u rid nid|u rid|u|u]; simpl; auto.
  - destruct (send_run_cases isValid db u rid nid fs)
      as [[-> _]|(ro & _ & -> & _ & _ & _ & _ & Hnone & Hn)]; auto.
    right. left. by exists u, ro, nid.
  - destruct (accept_run_cases isValid db u rid fs)
      as [[-> _]|(q & r & _ & _ & Hr & Hrec & Hst & -> & _)]; auto.
    right. right. exists r. destruct (findRequest_Some _ _ _ Hr) as [_ Hid].
    by rewrite Hid.
Qed.

(** An invariant of every step is an invariant of every sequence. *)
Lemma exec_invariant (P : DB → Prop) :
  (∀ db c, P db → P (step isValid db c)) →
  ∀ cs db, P db → P (exec isValid db cs).
Proof.
  intros Hstep cs. induction cs as [|c cs IH]; intros db HP; [done|].
  simpl. apply IH, Hstep, HP.
Qed.

(** A record that exists keeps existing. *)
Lemma exec_findUser cs db a :
  is_Some (findUser a db) → is_Some (findUser a (exec isValid db cs)).
Proof.
  revert db. apply (exec_invariant (λ d, is_Some (findUser a d))).
  intros db [c fs] [u Hu].
  destruct (step_db_cases db c fs)
    as [->|[(u0 & ro & nid & -> & _)|(r & -> & _)]].
  - by exists u.
  - by exists u.
  - pose proof (findUser_accepted_db a r db) as H. rewrite Hu in H.
    destruct H as (u' & Hu' & _). by exists u'.
Qed.

(** An accepted request stays the accepted request found under its id. *)
Lemma exec_accepted cs db q v :
  (∃ x, findRequest q db = Some x ∧ status x = Accepted ∧ recipient x = v) →
  ∃ x, findRequest q (exec isValid db cs) = Some x
       ∧ status x = Accepted ∧ recipient x = v.
Proof.
  revert db.
  apply (exec_invariant
           (λ d, ∃ x, findRequest q d = Some x
                      ∧ status x = Accepted ∧ recipient x = v)).
  intros db [c fs] (x & Hx & Hst & Hrec).
  destruct (step_db_cases db c fs)
    as [->|[(u0 & ro & nid & -> & _)|(r & -> & Hr & Hp)]].
  - by exists x.
  - exists x. split; [|done]. by apply findRequest_insert_old.
  - exists x. split; [|done].
    rewrite findRequest_accepted_db_other; [done|].
    intros ->. rewrite Hr in Hx. injection Hx as ->. congruence.
Qed.

(** X9: no sequence of calls breaks the symmetry of friendship among
    the records that exist. *)
Theorem friendship_stays_symmetric db cs :
  symmetric_friends db → symmetric_friends (exec isValid db cs).
Proof.
  revert db. apply exec_invariant. intros db [c fs] Hsym.
  destruct (step_db_cases db c fs)
    as [->|[(u & ro & nid & -> & _)|(r & -> & _)]].
  - done.
  - exact Hsym.
  - by apply accepted_db_symmetric.
Qed.

(** X10: no sequence of calls creates, deletes or reorders a user, or
    changes anything of a user but the friends, and a user never loses a
    friend. *)
Theorem users_only_gain_friends db cs :
  length (users (exec isValid db cs)) = length (users db)
  ∧ ∀ i u, users db !! i = Some u →
      ∃ u', users (exec isValid db cs) !! i = Some u'
            ∧ same_profile u u' ∧ ∀ y, y ∈ friends u → y ∈ friends u'.
Proof.
  revert db. induction cs as [|[c fs] cs IH]; intros db.
  { split; [done|]. intros i u Hi. exists u. by repeat split. }
  simpl. destruct (IH (step isValid db (c, fs))) as [Hlen Hall].
  assert (length (users (step isValid db (c, fs))) = length (users db)
          ∧ ∀ i u, users db !! i = Some u →
              ∃ u', users (step isValid db (c, fs)) !! i = Some u'
                    ∧ same_profile u u'
                    ∧ ∀ y, y ∈ friends u → y ∈ friends u') as [Hl1 H1].
  { destruct (step_db_cases db c fs)
      as [->|[(u & ro & nid & -> & _)|(r & -> & _)]].
    - split; [done|]. intros i u Hi. exists u. by repeat split.
    - split; [done|]. intros i u0 Hi. exists u0. by repeat split.
    - split.
      + unfold accepted_db, updateAddFriend. simpl.
        by rewrite !update_first_length.
      + intros i u Hi. by apply users_accepted_db_lookup. }
  split; [congruence|]. intros i u Hi.
  destruct (H1 i u Hi) as (u1 & Hu1 & Hp1 & Hf1).
  destruct (Hall i u1 Hu1) as (u2 & Hu2 & Hp2 & Hf2).
  exists u2. split; [done|]. split; [|auto].
  unfold same_profile in *. intuition congruence.
Qed.

(** X11: from a store with at most one request per unordered pair of
    users, every sequence of calls leads to such a store. *)
Theorem requests_stay_one_per_pair db cs :
  one_per_pair (requests db) →
  one_per_pair (requests (exec isValid db cs)).
Proof.
  revert db.
  apply (exec_invariant (λ d, one_per_pair (requests d))).
  intros db [c fs] Hone.
  destruct (step_db_cases db c fs)
    as [->|[(u & ro & nid & -> & Hnone & _)|(r & -> & Hr & _)]].
  - done.
  - by apply insert_one_per_pair.
  - intros i j r1 r2 Hi Hj Hb.
    apply (saveRequest_lookup_inv r db) in Hi as (x1 & Hx1 & Hs1 & Hr1);
      [|done].
    apply (saveRequest_lookup_inv r db) in Hj as (x2 & Hx2 & Hs2 & Hr2);
      [|done].
    apply (Hone i j x1 x2 Hx1 Hx2). unfold between in *.
    rewrite <- Hs1, <- Hr1, <- Hs2, <- Hr2. done.
Qed.

(** X12: no sequence of calls breaks this: the parties of every accepted
    request whose records exist hold each other as friends. *)
Theorem accepted_stay_friends db cs :
  accepted_are_friends db → accepted_are_friends (exec isValid db cs).
Proof.
  revert db. apply exec_invariant. intros db [c fs] Hinv.
  destruct (step_db_cases db c fs)
    as [->|[(u & ro & nid & -> & _)|(r & -> & Hr & _)]].
  - done.
  - intros r Hin Hacc. apply elem_of_app in Hin as [Hin|Hin].
    + exact (Hinv r Hin Hacc).
    + by apply list_elem_of_singleton in Hin as ->.
  - intros y Hy Hacc.
    assert (∀ x z, (y ∈ requests db ∧ status y = Accepted)
                   ∨ (sender y = sender r ∧ recipient y = recipient r) →
              (x = sender y ∧ z = recipient y)
              ∨ (x = recipient y ∧ z = sender y) →
              ∀ u', findUser x (accepted_db r db) = Some u' →
                    z ∈ friends u') as Hkey.
    { intros x z Hwhich Hxz u' Hu'.
      pose proof (findUser_accepted_db x r db) as Hf.
      destruct (findUser x db) as [u|] eqn:Hu; [|congruence].
      destruct Hf as (u2 & Hu2 & Hm). simplify_eq. apply Hm.
      destruct Hwhich as [[Hin Ha]|[Hs Hrc]].
      - left. destruct (Hinv y Hin Ha) as [Hsd Hrp].
        destruct Hxz as [[-> ->]|[-> ->]]; auto.
      - right. rewrite Hs, Hrc in Hxz. tauto. }
    pose proof (in_saveRequest r db y Hr Hy) as Hcase.
    assert ((y ∈ requests db ∧ status y = Accepted)
            ∨ (sender y = sender r ∧ recipient y = recipient r)) as Hwhich.
    { destruct Hcase as [?| ->]; [by left|by right]. }
    split; intros u' Hu'; eapply (Hkey _ _ Hwhich); eauto.
Qed.

(** ** The unit of work of an acceptance *)


(** ** A request sent, then accepted *)


(** ** Doing it again *)

(** X7: once an acceptance has answered 200, then after any further
    calls no acceptance of that request, by whomever, in whatever
    spelling of its id and whatever the store calls do, answers 200 or
    changes what is persisted; the recipient asking again is answered 400
    "Request already processed". *)
Theorem accept_only_once db userId requestId fs body :
  response (run (acceptFriendRequest isValid userId requestId) db fs)
  = Some (200, body) →
  let db' :=
    committed (run (acceptFriendRequest isValid userId requestId) db fs) in
  ∃ q, cast requestId = Some q
    ∧ ∀ cs requestId',
        cast requestId' = Some q →
        let d := exec isValid db' cs in
        (∀ u fs',
           let w := run (acceptFriendRequest isValid u requestId') d fs' in
           committed w = d ∧ ∀ b, response w ≠ Some (200, b))
        ∧ (isValid requestId' = true →
           response (run (acceptFriendRequest isValid userId requestId') d [])
           = Some (400, JMessage "Request already processed")).
Proof.
  intros Hok db'.
  destruct (accept_run_cases isValid db userId requestId fs)
    as [[_ Hno]|(q & r & Hq & Hv & Hr & Hrec & Hst & Hc & _)].
  { by destruct (Hno body). }
  exists q. split; [done|]. intros cs requestId' Hq' d.
  destruct (exec_accepted cs db' q userId) as (x & Hx & Hxst & Hxrec).
  { subst db'. rewrite Hc. eexists. split.
    - by apply accepted_db_request.
    - done. }
  fold d in Hx. split.
  - intros u fs' w.
    destruct (accept_run_cases isValid d u requestId' fs')
      as [Hsame|(q2 & r2 & Hq2 & _ & Hr2 & _ & Hst2 & _)]; [done|].
    assert (q2 = q) as -> by congruence.
    rewrite Hx in Hr2. injection Hr2 as <-. congruence.
  - intros Hv'.
    rewrite (accept_quiet_processed isValid d userId requestId' q x);
      try done.
    congruence.
Qed.

(** A request between two users whose records exist makes a further
    request between them answer 400, when no store call is rejected. *)
Lemma send_again_quiet d u v rid nid :
  isValid rid = true → toString u ≠ rid → cast rid = Some v →
  is_Some (findUser u d) → is_Some (findUser v d) →
  (∃ x, x ∈ requests d ∧ between u v x) →
  ∃ msg,
    response (run (sendFriendRequest isValid u rid nid) d [])
    = Some (400, JMessage msg)
    ∧ msg ∈ ["Already friends"; "Request already pending";
             "Already connected"].
Proof.
  intros Hv Hne Hc [cu Hcu] [rc Hrc] (x & Hx & Hb).
  destruct (includes (friends cu) rid) eqn:Hi1.
  { exists "Already friends". split; [|by left].
    rewrite (send_quiet_friends isValid d u rid v nid cu rc); auto. }
  destruct (decide (u ∈ friends rc)) as [Hi2|Hi2].
  { exists "Already friends". split; [|by left].
    rewrite (send_quiet_friends isValid d u rid v nid cu rc); auto. }
  destruct (findOneBetween u v d) as [e|] eqn:He.
  2: { rewrite findOneBetween_None in He. by destruct (He x Hx). }
  eexists. split.
  - by rewrite (send_quiet_existing isValid d u rid v nid cu rc e).
  - destruct (decide (status e = Pending)); [by right; left|].
    by right; right; left.
Qed.

(** X8: once a request has been created (201), then after any further
    calls sending again between the same two users, in either direction,
    in whatever spelling of the id and whatever the store calls do,
    persists nothing and is not answered 201; when no store call is
    rejected and the id passes the format check and is not the caller's
    own id string, the answer is 400 with "Already friends", "Request
    already pending" or "Already connected".  Sent again at once with the
    same id string, the answer is 400 "Request already pending". *)
Theorem send_only_once db myId rid nid fs body :
  response (run (sendFriendRequest isValid myId rid nid) db fs)
  = Some (201, body) →
  let db' :=
    committed (run (sendFriendRequest isValid myId rid nid) db fs) in
  ∃ ro, cast rid = Some ro
    ∧ (∀ nid',
         response (run (sendFriendRequest isValid myId rid nid') db' [])
         = Some (400, JMessage "Request already pending"))
    ∧ ∀ cs u v rid' nid',
        (u = myId ∧ v = ro) ∨ (u = ro ∧ v = myId) →
        cast rid' = Some v →
        let d := exec isValid db' cs in
        (∀ fs',
           let w := run (sendFriendRequest isValid u rid' nid') d fs' in
           committed w = d ∧ ∀ b, response w ≠ Some (201, b))
        ∧ (isValid rid' = true → toString u ≠ rid' →
           ∃ msg,
             response (run (sendFriendRequest isValid u rid' nid') d [])
             = Some (400, JMessage msg)
             ∧ msg ∈ ["Already friends"; "Request already pending";
                      "Already connected"]).
Proof.
  intros Hok db'.
  destruct (send_run_cases isValid db myId rid nid fs)
    as [[_ Hno]|(ro & Hro & Hc & _ & Hv & Hne & (cu & rc & Hcu & Hrc & Hf1 & Hf2)
                 & Hnone & Hn)].
  { by destruct (Hno body). }
  set (doc := mkFriendRequest nid myId ro Pending) in *.
  exists ro. split; [done|].
  destruct (findOneBetween_insert_new doc db Hnone) as [Hfwd _].
  simpl in Hfwd. subst db'. rewrite Hc. split.
  - intros nid'.
    by rewrite (send_quiet_existing isValid (insertRequest doc db) myId rid
                  ro nid' cu rc doc).
  - intros cs u v rid' nid' Huv Hc' d.
    assert (∃ x, x ∈ requests d ∧ between myId ro x) as (x & Hx & Hbx).
    { destruct (exec_keeps isValid cs (insertRequest doc db)
                  (length (requests db)) doc)
        as (x & Hx & _ & Hxs & Hxr & _).
      { simpl. rewrite lookup_app_r by lia.
        by rewrite Nat.sub_diag. }
      exists x. split; [by apply list_elem_of_lookup_2 in Hx|].
      left. by rewrite Hxs, Hxr. }
    assert (is_Some (findUser myId d)) as Hum.
    { apply exec_findUser. by exists cu. }
    assert (is_Some (findUser ro d)) as Hur.
    { apply exec_findUser. by exists rc. }
    assert (∃ y, y ∈ requests d ∧ between u v y) as Hbetween.
    { exists x. split; [done|].
      destruct Huv as [[-> ->]|[-> ->]]; [done|by apply between_sym]. }
    assert (is_Some (findUser u d) ∧ is_Some (findUser v d)) as [Hu1 Hu2].
    { by destruct Huv as [[-> ->]|[-> ->]]. }
    split.
    + intros fs' w.
      destruct (send_run_cases isValid d u rid' nid' fs')
        as [Hsame|(v' & Hv' & _ & _ & _ & _ & _ & Hnone' & _)]; [done|].
      assert (v' = v) as -> by congruence.
      rewrite findOneBetween_None in Hnone'.
      destruct Hbetween as (y & Hy & Hby). by destruct (Hnone' y Hy).
    + intros Hv' Hne'. by apply (send_again_quiet d u v rid' nid').
Qed.

End Invariants.

(** ** After an acceptance *)

Lemma recommended_quiet db userId me :
  findUser userId db = Some me →
  response (run (getRecommendedUsers userId) db [])
  = Some (200, JUsers
       (summary <$> findRecommended (friends me ++ [userId]) db)).
Proof. intros Hme. unfold getRecommendedUsers. crunch. by rewrite Hme. Qed.

Lemma recommended_not_in ids db x :
  x ∈ summary <$> findRecommended ids db → sum_id x ∉ ids.
Proof.
  intros Hx. apply list_elem_of_fmap in Hx as (u & -> & Hu).
  apply list_elem_of_filter in Hu as [[Hn _] _]. done.
Qed.

Lemma myFriends_quiet db userId me :
  findUser userId db = Some me →
  response (run (getMyFriends userId) db [])
  = Some (200, JUsers (populateFriends (friends me) db)).
Proof. intros Hme. unfold getMyFriends. crunch. by rewrite Hme. Qed.

Lemma populateFriends_elem db ids id u :
  id ∈ ids → findUser id db = Some u → summary u ∈ populateFriends ids db.
Proof.
  intros Hid Hu. apply list_elem_of_omap. exists id. split; [done|].
  unfold populateSummary. by rewrite Hu.
Qed.

Section AfterAcceptance.

Variable isValid : string → bool.

(** X13: after an acceptance that answered 200, with the records of both
    parties existing, [getMyFriends] of each lists the other, and
    [getRecommendedUsers] of each leaves the other out. *)
Theorem accepted_listed_not_recommended db userId requestId q fs body r s t :
  response (run (acceptFriendRequest isValid userId requestId) db fs)
  = Some (200, body) →
  cast requestId = Some q →
  findRequest q db = Some r →
  findUser (sender r) db = Some s → findUser (recipient r) db = Some t →
  let db' :=
    committed (run (acceptFriendRequest isValid userId requestId) db fs) in
  (∃ mine theirs,
     response (run (getMyFriends (sender r)) db' [])
     = Some (200, JUsers mine)
     ∧ (∃ x, x ∈ mine ∧ sum_id x = recipient r)
     ∧ response (run (getMyFriends (recipient r)) db' [])
       = Some (200, JUsers theirs)
     ∧ (∃ x, x ∈ theirs ∧ sum_id x = sender r))
  ∧ (∃ mine theirs,
       response (run (getRecommendedUsers (sender r)) db' [])
       = Some (200, JUsers mine)
       ∧ (∀ x, x ∈ mine → sum_id x ≠ recipient r)
       ∧ response (run (getRecommendedUsers (recipient r)) db' [])
         = Some (200, JUsers theirs)
       ∧ (∀ x, x ∈ theirs → sum_id x ≠ sender r)).
Proof.
  intros Hok Hq Hr Hs Ht db'.
  destruct (accept_run_cases isValid db userId requestId fs)
    as [[_ Hno]|(q' & r' & Hq' & _ & Hr' & _ & _ & Hc & _)].
  { by destruct (Hno body). }
  assert (q' = q) as -> by congruence.
  assert (r' = r) as -> by congruence.
  subst db'. rewrite Hc.
  destruct (accepted_db_sender db r s Hs) as (s' & Hs' & _ & Hfs).
  destruct (accepted_db_recipient db r t Ht) as (t' & Ht' & _ & Hft).
  assert (recipient r ∈ friends s') as Hin1
    by (rewrite Hfs; apply addToSet_elem).
  assert (sender r ∈ friends t') as Hin2
    by (rewrite Hft; apply addToSet_elem).
  split.
  - eexists _, _. split; [by apply myFriends_quiet|]. split.
    { exists (summary t'). split.
      - by apply (populateFriends_elem _ _ (recipient r)).
      - simpl. by destruct (findUser_Some _ _ _ Ht'). }
    split; [by apply myFriends_quiet|].
    exists (summary s'). split.
    + by apply (populateFriends_elem _ _ (sender r)).
    + simpl. by destruct (findUser_Some _ _ _ Hs').
  - eexists _, _. split; [by apply recommended_quiet|]. split.
    { intros x Hx Heq. apply recommended_not_in in Hx. apply Hx.
      rewrite Heq. apply elem_of_app. by left. }
    split; [by apply recommended_quiet|].
    intros x Hx Heq. apply recommended_not_in in Hx. apply Hx.
    rewrite Heq. apply elem_of_app. by left.
Qed.

End AfterAcceptance.

(** * The theme store *)

(** C10 (as amended): the initial theme is the value stored under
    "ChatApp" when there is one and it is not the empty string, and
    "forest" otherwise; after [setTheme t] the theme of the store is [t]
    and the value stored under "ChatApp" is [t], the other keys being
    left alone. *)
Theorem themeStore_initial_and_set (localStorage : gmap string string) :
  (∀ v, localStorage !! "ChatApp" = Some v → v ≠ EmptyString →
        ThemeStore.theme (ThemeStore.useThemeStore localStorage) = v)
  ∧ (localStorage !! "ChatApp" = None
     ∨ localStorage !! "ChatApp" = Some EmptyString →
     ThemeStore.theme (ThemeStore.useThemeStore localStorage) = "forest")
  ∧ (∀ t st,
       ThemeStore.theme (ThemeStore.setTheme t (localStorage, st)).2 = t
       ∧ ThemeStore.getItem "ChatApp"
           (ThemeStore.setTheme t (localStorage, st)).1 = Some t
       ∧ ∀ key, key ≠ "ChatApp" →
           ThemeStore.getItem key
             (ThemeStore.setTheme t (localStorage, st)).1
           = ThemeStore.getItem key localStorage).
Proof.
  unfold ThemeStore.useThemeStore, ThemeStore.setTheme, ThemeStore.getItem,
    ThemeStore.setItem. simpl. split; [|split].
  - intros v -> Hv. by destruct v.
  - by intros [->| ->].
  - intros t st. split; [done|]. split.
    + apply lookup_insert_eq.
    + intros key Hkey. by apply lookup_insert_ne.
Qed.

(** X14: a theme other than the empty string survives a reload: a store
    created from the storage [setTheme t] has written starts with the
    theme [t]; and of two [setTheme] in a row only the second counts. *)
Theorem themeStore_reload :
  (∀ t ws, t ≠ EmptyString →
     ThemeStore.theme
       (ThemeStore.useThemeStore (ThemeStore.setTheme t ws).1) = t)
  ∧ (∀ t1 t2 ws,
       ThemeStore.setTheme t2 (ThemeStore.setTheme t1 ws)
       = ThemeStore.setTheme t2 ws).
Proof.
  unfold ThemeStore.useThemeStore, ThemeStore.setTheme, ThemeStore.getItem,
    ThemeStore.setItem. split.
  - intros t ws Ht. simpl. rewrite lookup_insert_eq. by destruct t.
  - intros t1 t2 ws. simpl. by rewrite insert_insert_eq.
Qed.

(** * The specification at the sample data *)

(** C2: at a store where A and B are friends through an accepted request
    and both records exist, the [acceptedReqs] answered to either of them
    is empty: [populate] with the match [_id ≠ userId] makes the caller's
    own side [null], and the filter then drops the request. *)
Theorem getFriendRequests_accepted_dropped :
  findUser idA db_friends = Some (userA [idB])
  ∧ findUser idB db_friends = Some (userB [idA])
  ∧ requests db_friends = [mkFriendRequest idR idA idB Accepted]
  ∧ response (run (getFriendRequests idA) db_friends [])
    = Some (200, JRequests [] [])
  ∧ response (run (getFriendRequests idB) db_friends [])
    = Some (200, JRequests [] []).
Proof. repeat split; by vm_compute. Qed.

(** B accepts the request of A, its id spelled in upper case. *)
Lemma acceptFriendRequest_success_witness :
  response (run (acceptFriendRequest hex24 idB strR_upper) db_pending [])
  = Some (200, JMessage "Request accepted")
  ∧ ∃ s' t',
      findUser idA
        (committed
           (run (acceptFriendRequest hex24 idB strR_upper) db_pending []))
      = Some s'
      ∧ findUser idB
          (committed
             (run (acceptFriendRequest hex24 idB strR_upper) db_pending []))
        = Some t'
      ∧ friends s' = [idB] ∧ friends t' = [idA].
Proof.
  destruct (acceptFriendRequest_success hex24 db_pending idB strR_upper idR
              (mkFriendRequest idR idA idB Pending) (userA []) (userB [])
              eq_refl eq_refl eq_refl eq_refl) as [Hquiet Hall].
  assert (response
            (run (acceptFriendRequest hex24 idB strR_upper) db_pending [])
          = Some (200, JMessage "Request accepted")) as Hok.
  { apply Hquiet; reflexivity. }
  split; [exact Hok|].
  destruct (Hall [] _ Hok)
    as (_ & _ & _ & s' & t' & Hs & Ht & Hfs & Hft & _).
  exists s', t'.
  split; [exact Hs|]. split; [exact Ht|]. split; [exact Hfs|exact Hft].
Defined.

(** The sender's record is gone: the acceptance is answered 200 and the
    request is accepted, and no record of A holds B as a friend. *)
Lemma accept_orphan_sender_counterexample :
  findRequest idR db_orphan = Some (mkFriendRequest idR idA idB Pending)
  ∧ response (run (acceptFriendRequest hex24 idB strR) db_orphan [])
    = Some (200, JMessage "Request accepted")
  ∧ findRequest idR
      (committed (run (acceptFriendRequest hex24 idB strR) db_orphan []))
    = Some (mkFriendRequest idR idA idB Accepted)
  ∧ findUser idA
      (committed (run (acceptFriendRequest hex24 idB strR) db_orphan []))
    = None.
Proof. repeat split; by vm_compute. Qed.

Lemma one_per_pair_pending : one_per_pair (requests db_pending).
Proof.
  intros i j r1 r2 Hi Hj _.
  apply list_lookup_singleton_Some in Hi as [-> _].
  by apply list_lookup_singleton_Some in Hj as [-> _].
Qed.

Lemma sendFriendRequest_existing_request_witness :
  response (run (sendFriendRequest hex24 idA strB idR') db_pending [])
  = Some (400, JMessage "Request already pending")
  ∧ committed (run (sendFriendRequest hex24 idB strA_upper idR') db_pending
                   [false; false; true])
    = db_pending
  ∧ one_per_pair (requests (committed
      (run (sendFriendRequest hex24 idA strC idR') db_pending []))).
Proof.
  split; [|split].
  - destruct (sendFriendRequest_existing_request hex24 db_pending
                idA strB idR') as (H & _ & _).
    destruct (H idB (mkFriendRequest idR idA idB Pending)
                (userA []) (userB []))
      as (e & He & _ & _ & Hresp).
    + reflexivity.
    + apply list_elem_of_singleton. reflexivity.
    + left. split; reflexivity.
    + reflexivity.
    + by vm_compute.
    + reflexivity.
    + reflexivity.
    + reflexivity.
    + apply not_elem_of_nil.
    + vm_compute in He. injection He as <-. exact Hresp.
  - destruct (sendFriendRequest_existing_request hex24 db_pending
                idB strA_upper idR') as (_ & H & _).
    apply (H idA (mkFriendRequest idR idA idB Pending) [false; false; true]).
    + reflexivity.
    + apply list_elem_of_singleton. reflexivity.
    + right. split; reflexivity.
  - destruct (sendFriendRequest_existing_request hex24 db_pending
                idA strC idR') as (_ & _ & H).
    apply (H []), one_per_pair_pending.
Defined.

(** A and B are friends through an accepted request: the answer is the
    Conflict of the friendship check, not "Already connected". *)
Lemma send_between_friends_counterexample :
  mkFriendRequest idR idA idB Accepted ∈ requests db_friends
  ∧ between idA idB (mkFriendRequest idR idA idB Accepted)
  ∧ response (run (sendFriendRequest hex24 idA strB idR') db_friends [])
    = Some (400, JMessage "Already friends")
  ∧ response (run (sendFriendRequest hex24 idA strB idR') db_friends [])
    ≠ Some (400, JMessage "Already connected").
Proof.
  split; [|split; [|split]].
  - apply list_elem_of_singleton. reflexivity.
  - left. split; reflexivity.
  - by vm_compute.
  - by vm_compute.
Qed.



Lemma acceptFriendRequest_failure_precedence_witness :
  response (run (acceptFriendRequest hex24 idB "nope") db_pending [])
  = Some (400, JMessage "Invalid request ID")
  ∧ response (run (acceptFriendRequest hex24 idB strR') db_pending [])
    = Some (404, JMessage "Request not found")
  ∧ response (run (acceptFriendRequest hex24 idC strR_upper) db_pending [])
    = Some (403, JMessage "Unauthorized")
  ∧ response (run (acceptFriendRequest hex24 idB strR_upper) db_friends [])
    = Some (400, JMessage "Request already processed")
  ∧ committed (run (acceptFriendRequest hex24 idC strR) db_pending
                   [false; true])
    = db_pending.
Proof.
  split; [|split; [|split; [|split]]].
  - apply (acceptFriendRequest_failure_precedence hex24 db_pending
             idB "nope").
    reflexivity.
  - pose proof (acceptFriendRequest_failure_precedence hex24 db_pending
                  idB strR') as H.
    cbv zeta in H. destruct H as (_ & H & _).
    apply (H idR'); reflexivity.
  - pose proof (acceptFriendRequest_failure_precedence hex24 db_pending
                  idC strR_upper) as H.
    cbv zeta in H. destruct H as (_ & _ & H & _).
    apply (H idR (mkFriendRequest idR idA idB Pending)).
    + reflexivity.
    + reflexivity.
    + reflexivity.
    + by vm_compute.
  - pose proof (acceptFriendRequest_failure_precedence hex24 db_friends
                  idB strR_upper) as H.
    cbv zeta in H. destruct H as (_ & _ & _ & H & _).
    apply (H idR (mkFriendRequest idR idA idB Accepted)).
    + reflexivity.
    + reflexivity.
    + reflexivity.
    + reflexivity.
    + discriminate.
  - pose proof (acceptFriendRequest_failure_precedence hex24 db_pending
                  idC strR) as H.
    cbv zeta in H. destruct H as (_ & _ & _ & _ & H).
    apply H.
    right. exists idR. split; [reflexivity|].
    right. exists (mkFriendRequest idR idA idB Pending).
    split; [reflexivity|]. left. by vm_compute.
Defined.


(** A asks at the store of three users: B is recommended, A is not, and
    C, who is not onboarded, is not. *)
Lemma getRecommendedUsers_exact_witness :
  ∃ docs,
    response (run (getRecommendedUsers idA) db_fresh [])
    = Some (200, JUsers docs)
    ∧ mkSummary idB "Bilal" "bilal.png" "urdu" "spanish" ∈ docs
    ∧ (∀ s, s ∈ docs → sum_id s ≠ idA)
    ∧ (∀ s, s ∈ docs → sum_id s ≠ idC).
Proof.
  destruct (getRecommendedUsers_exact db_fresh idA (userA []) eq_refl)
    as (docs & Hresp & Hchar & Hnot).
  exists docs. split; [exact Hresp|]. split; [|split].
  - apply Hchar. exists (userB []). split; [|split; [|split; [|split]]].
    + right. left.
    + reflexivity.
    + by vm_compute.
    + apply not_elem_of_nil.
    + reflexivity.
  - intros s Hs. apply (Hnot s Hs).
  - intros s Hs Hc. apply Hchar in Hs as (u & Hu & Ho & _ & _ & ->).
    simpl in Hc. unfold db_fresh in Hu. simpl in Hu.
    rewrite !elem_of_cons, elem_of_nil in Hu.
    destruct Hu as [->|[->|[->|[]]]]; by vm_compute in Hc, Ho.
Defined.

(** B accepts the request of A: the one stored request becomes accepted;
    and it stays so, in its place, whatever is called afterwards. *)
Lemma friendRequest_lifecycle_witness :
  requests (step hex24 db_pending (CallAccept idB strR_upper, []))
  = [mkFriendRequest idR idA idB Accepted]
  ∧ ∃ r',
      requests (exec hex24 db_friends later_calls) !! 0 = Some r'
      ∧ request_id r' = idR ∧ sender r' = idA ∧ recipient r' = idB
      ∧ status r' = Accepted.
Proof.
  destruct (friendRequest_lifecycle hex24 db_pending) as [Hstep _].
  destruct (friendRequest_lifecycle hex24 db_friends) as [_ Hkeep].
  split.
  - destruct (Hstep (CallAccept idB strR_upper) [])
      as [Hsame|[(u & rid & ro & nid & Hc & _)
                |(u & rid & q & r & i & _ & _ & _ & _ & _ & Hi & Hreq)]].
    + by vm_compute in Hsame.
    + discriminate Hc.
    + rewrite Hreq.
      apply list_lookup_singleton_Some in Hi as [-> <-]. reflexivity.
  - destruct (Hkeep later_calls 0 (mkFriendRequest idR idA idB Accepted)
                eq_refl)
      as (r' & Hr' & Hid & Hs & Hr & Hacc).
    exists r'. repeat split; try assumption. apply Hacc. reflexivity.
Defined.

(** The record of A is gone: B's acceptance is answered 200, the request
    becomes accepted, no record of A appears, and B gains A as a
    friend. *)
Lemma acceptFriendRequest_missing_user_witness :
  response (run (acceptFriendRequest hex24 idB strR) db_orphan [])
  = Some (200, JMessage "Request accepted")
  ∧ findRequest idR
      (committed (run (acceptFriendRequest hex24 idB strR) db_orphan []))
    = Some (mkFriendRequest idR idA idB Accepted)
  ∧ findUser idA
      (committed (run (acceptFriendRequest hex24 idB strR) db_orphan []))
    = None
  ∧ ∃ t',
      findUser idB
        (committed (run (acceptFriendRequest hex24 idB strR) db_orphan []))
      = Some t'
      ∧ friends t' = [idA].
Proof.
  destruct (acceptFriendRequest_missing_user hex24 db_orphan idB strR idR
              (mkFriendRequest idR idA idB Pending)
              eq_refl eq_refl eq_refl eq_refl eq_refl)
    as (Hresp & Hreq & Hs & _).
  split; [exact Hresp|]. split; [exact Hreq|].
  destruct (Hs eq_refl) as [Hnone Hgain].
  split; [exact Hnone|].
  destruct (Hgain (userB []) eq_refl) as (t' & Ht' & _ & _ & Happ & _).
  exists t'. split; [exact Ht'|]. apply Happ. apply not_elem_of_nil.
Defined.

Lemma themeStore_initial_and_set_witness :
  ThemeStore.theme
    (ThemeStore.useThemeStore (ThemeStore.setItem "ChatApp" "dark" ∅))
  = "dark"
  ∧ ThemeStore.theme (ThemeStore.useThemeStore ∅) = "forest"
  ∧ ThemeStore.getItem "theme"
      (ThemeStore.setTheme "dark" (∅, ThemeStore.mkState "forest")).1
    = ThemeStore.getItem "theme" ∅.
Proof.
  split; [|split].
  - apply (themeStore_initial_and_set
             (ThemeStore.setItem "ChatApp" "dark" ∅)).
    + apply lookup_insert_eq.
    + discriminate.
  - apply (themeStore_initial_and_set ∅). left. apply lookup_empty.
  - apply (themeStore_initial_and_set ∅ ). discriminate.
Defined.

(** The empty string is stored under "ChatApp", and the initial theme is
    "forest": so it is after [setTheme] of the empty string and a
    reload. *)
Lemma theme_empty_string_counterexample :
  ThemeStore.getItem "ChatApp"
    (ThemeStore.setTheme EmptyString (∅, ThemeStore.mkState "forest")).1
  = Some EmptyString
  ∧ ThemeStore.theme
      (ThemeStore.useThemeStore
         (ThemeStore.setTheme EmptyString
            (∅, ThemeStore.mkState "forest")).1)
    = "forest"
  ∧ "forest" ≠ EmptyString.
Proof.
  assert (ThemeStore.getItem "ChatApp"
            (ThemeStore.setTheme EmptyString
               (∅, ThemeStore.mkState "forest")).1
          = Some EmptyString) as H by apply lookup_insert_eq.
  split; [exact H|]. split; [|discriminate].
  unfold ThemeStore.useThemeStore. by rewrite H.
Qed.

(** * The further facts at the sample data *)

Lemma getMyFriends_exact_witness :
  response (run (getMyFriends idR) db_friends [])
  = Some (404, JMessage "User not found")
  ∧ ∃ docs,
      response (run (getMyFriends idA) db_friends [])
      = Some (200, JUsers docs)
      ∧ mkSummary idB "Bilal" "bilal.png" "urdu" "spanish" ∈ docs
      ∧ sum_id <$> docs = [idB].
Proof.
  split.
  - apply (getMyFriends_exact db_friends idR). reflexivity.
  - destruct (getMyFriends_exact db_friends idA) as [_ H].
    destruct (H (userA [idB]) eq_refl) as (docs & Hresp & Hchar & _ & Hall).
    exists docs. split; [exact Hresp|]. split.
    + apply Hchar. exists idB, (userB [idA]).
      split; [by left|]. split; reflexivity.
    + apply Hall.
      intros id Hid. apply list_elem_of_singleton in Hid as ->.
      eexists. reflexivity.
Defined.

Lemma getFriendRequests_incoming_witness :
  ∃ inc acc,
    response (run (getFriendRequests idB) db_orphan [])
    = Some (200, JRequests inc acc)
    ∧ mkView idR (PartySummary None) (PartyRef idB) Pending ∈ inc.
Proof.
  destruct (getFriendRequests_incoming db_orphan idB)
    as (inc & acc & Hresp & _ & Hnull).
  exists inc, acc. split; [exact Hresp|].
  apply (Hnull (mkFriendRequest idR idA idB Pending)).
  - apply list_elem_of_singleton. reflexivity.
  - reflexivity.
  - reflexivity.
  - reflexivity.
Defined.


(** B has accepted; after two more calls B asks again under the other
    spelling, and A tries too while a store call is rejected. *)
Lemma accept_only_once_witness :
  response (run (acceptFriendRequest hex24 idB strR_upper)
     (exec hex24
        (committed (run (acceptFriendRequest hex24 idB strR) db_pending []))
        later_calls) [])
  = Some (400, JMessage "Request already processed")
  ∧ committed (run (acceptFriendRequest hex24 idA strR)
       (exec hex24
          (committed (run (acceptFriendRequest hex24 idB strR) db_pending []))
          later_calls)
       [false; false; true])
    = exec hex24
        (committed (run (acceptFriendRequest hex24 idB strR) db_pending []))
        later_calls.
Proof.
  pose proof (accept_only_once hex24 db_pending idB strR []
                (JMessage "Request accepted")) as H.
  cbv zeta in H. destruct H as (q & Hq & Hall).
  - by vm_compute.
  - vm_compute in Hq. injection Hq as <-. split.
    + apply (Hall later_calls strR_upper eq_refl). reflexivity.
    + destruct (Hall later_calls strR eq_refl) as [Hno _].
      apply (Hno idA [false; false; true]).
Defined.

(** A has asked B; B then accepts, and asks A under the upper-case
    spelling: nothing is stored, and the answer is a 400. *)
Lemma send_only_once_witness :
  response (run (sendFriendRequest hex24 idA strB idR')
     (committed (run (sendFriendRequest hex24 idA strB idR) db_fresh [])) [])
  = Some (400, JMessage "Request already pending")
  ∧ committed (run (sendFriendRequest hex24 idB strA_upper idR')
       (exec hex24
          (committed (run (sendFriendRequest hex24 idA strB idR) db_fresh []))
          [(CallAccept idB strR, [])])
       [false; false; false; false; false; true])
    = exec hex24
        (committed (run (sendFriendRequest hex24 idA strB idR) db_fresh []))
        [(CallAccept idB strR, [])]
  ∧ ∃ msg,
      response (run (sendFriendRequest hex24 idB strA_upper idR')
         (exec hex24
            (committed
               (run (sendFriendRequest hex24 idA strB idR) db_fresh []))
            [(CallAccept idB strR, [])]) [])
      = Some (400, JMessage msg).
Proof.
  pose proof (send_only_once hex24 db_fresh idA strB idR []
                (JRequest (mkFriendRequest idR idA idB Pending))) as H.
  cbv zeta in H. destruct H as (ro & Hro & Hsame & Hall).
  - by vm_compute.
  - vm_compute in Hro. injection Hro as <-.
    split; [apply Hsame|].
    destruct (Hall [(CallAccept idB strR, [])] idB idA strA_upper idR')
      as [Hno Hquiet].
    + right. split; reflexivity.
    + reflexivity.
    + split; [apply (Hno [false; false; false; false; false; true])|].
      destruct Hquiet as (msg & Hmsg & _).
      * reflexivity.
      * by vm_compute.
      * by exists msg.
Defined.

(** The sample store without requests has the properties. *)
Lemma db_fresh_symmetric : symmetric_friends db_fresh.
Proof.
  intros a b u v Ha Hb.
  apply findUser_Some in Ha as [Ha _]. apply findUser_Some in Hb as [Hb _].
  simpl in Ha, Hb. rewrite !elem_of_cons in Ha, Hb.
  rewrite elem_of_nil in Ha, Hb.
  destruct Ha as [->|[->|[->|[]]]], Hb as [->|[->|[->|[]]]]; simpl;
    split; intros H; by apply elem_of_nil in H.
Qed.

Lemma friendship_stays_symmetric_witness :
  symmetric_friends (exec hex24 db_fresh sample_calls).
Proof.
  apply (friendship_stays_symmetric hex24 db_fresh sample_calls).
  exact db_fresh_symmetric.
Defined.

Lemma users_only_gain_friends_witness :
  ∃ u', users (exec hex24 db_fresh sample_calls) !! 1 = Some u'
        ∧ same_profile (userB []) u'.
Proof.
  destruct (users_only_gain_friends hex24 db_fresh sample_calls) as [_ H].
  destruct (H 1 (userB []) eq_refl) as (u' & Hu' & Hp & _).
  by exists u'.
Defined.

Lemma requests_stay_one_per_pair_witness :
  one_per_pair (requests (exec hex24 db_fresh sample_calls)).
Proof.
  apply (requests_stay_one_per_pair hex24 db_fresh sample_calls).
  intros i j r1 r2 Hi. unfold db_fresh in Hi. simpl in Hi. discriminate.
Defined.

Lemma accepted_stay_friends_witness :
  accepted_are_friends (exec hex24 db_fresh sample_calls).
Proof.
  apply (accepted_stay_friends hex24 db_fresh sample_calls).
  intros r Hr. by apply elem_of_nil in Hr.
Defined.

Lemma accepted_listed_not_recommended_witness :
  ∃ mine theirs,
    response (run (getMyFriends idA)
       (committed
          (run (acceptFriendRequest hex24 idB strR_upper) db_pending []))
       [])
    = Some (200, JUsers mine)
    ∧ (∃ x, x ∈ mine ∧ sum_id x = idB)
    ∧ response (run (getMyFriends idB)
         (committed
            (run (acceptFriendRequest hex24 idB strR_upper) db_pending []))
         [])
      = Some (200, JUsers theirs)
    ∧ (∃ x, x ∈ theirs ∧ sum_id x = idA).
Proof.
  pose proof (accepted_listed_not_recommended hex24 db_pending idB strR_upper
                idR [] (JMessage "Request accepted")
                (mkFriendRequest idR idA idB Pending) (userA []) (userB []))
    as H.
  cbv zeta in H. destruct H as [Hlist _].
  - by vm_compute.
  - reflexivity.
  - reflexivity.
  - reflexivity.
  - reflexivity.
  - exact Hlist.
Defined.

Lemma themeStore_reload_witness :
  ThemeStore.theme
    (ThemeStore.useThemeStore
       (ThemeStore.setTheme "dark" (∅, ThemeStore.mkState "forest")).1)
  = "dark".
Proof.
  apply (themeStore_reload). discriminate.
Defined.
